(** * DiceAnalysisSystem: analytics and prediction engine of [script.js]

    A shallow embedding of the class [DiceAnalysisSystem]: the classifier
    ([getState], [getClassification]), the trend analyser, the transition
    matrix, the window aggregators and [predictNextOutcome].

    Conventions of the embedding.
    - [this.games] is passed explicitly as a [list game]; the constant
      [this.maxMemoryWindow] is set once by the constructor.
    - A JavaScript Number is an extended rational ([JS.num]): a finite value
      carried exactly in [Q], [NaN], or a signed infinity.  Binary64 rounding
      error and the sign of zero are outside the model; where a result is a
      rounded quotient, the properties bound it and do not say which
      neighbour an exact half goes to.
    - Counters that the code starts at the literal [0] and only increments
      ([upCount], [kecilCount], ...) are integers ([Z]).  A roll is a
      Number: [handleFormSubmit] receives what [parseInt] returns on the
      text of a field, an integer or [NaN], and stores it as it is.  An
      integer is read as a Number through the coercion [ofZ].  The fields
      [id] and [timestamp] of a round are never read by the analytics and
      are left out.
    - An object used as a lookup table keeps its properties in insertion
      order ([obj]); reading an absent property gives [undefined]
      ([None]), and reading a property of [undefined] throws
      ([TypeError]). *)

From Stdlib Require Import ZArith QArith Qround Qabs String List Bool Lia Lqa.
Import ListNotations.

Local Open Scope Z_scope.

(** ** JavaScript values used by the engine *)

Module JS.

(** Numbers. *)
Inductive num : Type :=
| Fin (q : Q)
| NaN
| Inf (negative : bool).

Definition ofZ (z : Z) : num := Fin (inject_Z z).

Definition Qnegb (q : Q) : bool :=
  match q ?= 0 with Lt => true | _ => false end%Q.

Definition add (a b : num) : num :=
  match a, b with
  | NaN, _ | _, NaN => NaN
  | Fin x, Fin y => Fin (x + y)
  | Inf s, Fin _ | Fin _, Inf s => Inf s
  | Inf s, Inf t => if Bool.eqb s t then Inf s else NaN
  end.

Definition neg (a : num) : num :=
  match a with
  | Fin x => Fin (- x)
  | NaN => NaN
  | Inf s => Inf (negb s)
  end.

Definition sub (a b : num) : num := add a (neg b).

Definition mul (a b : num) : num :=
  match a, b with
  | NaN, _ | _, NaN => NaN
  | Fin x, Fin y => Fin (x * y)
  | Inf s, Fin y | Fin y, Inf s =>
      if Qeq_bool y 0 then NaN else Inf (xorb s (Qnegb y))
  | Inf s, Inf t => Inf (xorb s t)
  end.

Definition div (a b : num) : num :=
  match a, b with
  | NaN, _ | _, NaN => NaN
  | Fin x, Fin y =>
      if Qeq_bool y 0
      then (if Qeq_bool x 0 then NaN else Inf (Qnegb x))
      else Fin (x / y)
  | Fin _, Inf _ => Fin 0
  | Inf s, Fin y => Inf (xorb s (Qnegb y))
  | Inf _, Inf _ => NaN
  end.

(** [Math.abs]. *)
Definition abs (a : num) : num :=
  match a with
  | Fin x => Fin (Qabs x)
  | NaN => NaN
  | Inf _ => Inf false
  end.

(** [Math.round]: the nearest integer, a tie going towards +infinity. *)
Definition round (a : num) : num :=
  match a with
  | Fin x => ofZ (Qfloor (x + (1 # 2)))
  | other => other
  end.

(** [a < b]; every comparison with [NaN] is false. *)
Definition lt (a b : num) : bool :=
  match a, b with
  | NaN, _ | _, NaN => false
  | Fin x, Fin y => match (x ?= y)%Q with Lt => true | _ => false end
  | Inf s, Fin _ => s
  | Fin _, Inf t => negb t
  | Inf s, Inf t => s && negb t
  end.

(** [a <= b], [a > b] and [a >= b]; again false as soon as one side is
    [NaN]. *)
Definition le (a b : num) : bool :=
  match a, b with
  | NaN, _ | _, NaN => false
  | _, _ => negb (lt b a)
  end.

Definition gt (a b : num) : bool := lt b a.

Definition ge (a b : num) : bool := le b a.

(** [a === b] on numbers. *)
Definition strict_eq (a b : num) : bool :=
  match a, b with
  | Fin x, Fin y => Qeq_bool x y
  | Inf s, Inf t => Bool.eqb s t
  | _, _ => false
  end.

(** Truthiness of a number: [0] and [NaN] are falsy. *)
Definition truthy (a : num) : bool :=
  match a with
  | Fin x => negb (Qeq_bool x 0)
  | NaN => false
  | Inf _ => true
  end.

(** [a || 0]. *)
Definition or0 (a : num) : num := if truthy a then a else Fin 0.

(** [ToNumber] of a property read: [undefined] becomes [NaN]. *)
Definition toNumber (v : option num) : num :=
  match v with Some n => n | None => NaN end.

(** [x++] on a property: the new value is [ToNumber(x) + 1]. *)
Definition incr (v : option num) : num := add (toNumber v) (Fin 1).

(** Outcome of a call: a normal return or an uncaught [TypeError]. *)
Inductive completion (A : Type) : Type :=
| Normal (a : A)
| TypeError.
Arguments Normal {A} a.
Arguments TypeError {A}.

Definition bind {A B} (c : completion A) (k : A -> completion B) : completion B :=
  match c with
  | Normal a => k a
  | TypeError => TypeError
  end.

End JS.

Import JS.

(** An integer used where a Number is expected is that Number. *)
Coercion ofZ : Z >-> num.

Notation "x <- c ;; k" := (JS.bind c (fun x => k))
  (at level 61, c at next level, right associativity).

(** ** Data model *)

Inductive State : Type := LOW | MID | HIGH | EXTREME | UNKNOWN.

Inductive Classification : Type := KECIL | BESAR.

Inductive Direction : Type := naik | turun | stabil.

Record Trend : Type := mkTrend { direction : Direction; diff : num }.

Record game : Type := mkGame {
  roll1 : num;
  roll2 : num;
  state1 : State;
  state2 : State;
  trend : Trend;
  classification : Classification
}.

Definition State_eqb (a b : State) : bool :=
  match a, b with
  | LOW, LOW | MID, MID | HIGH, HIGH | EXTREME, EXTREME | UNKNOWN, UNKNOWN => true
  | _, _ => false
  end.

(** ** State detection *)

Definition getState (roll : num) : State :=
  if ge roll 6 && le roll 18 then LOW
  else if ge roll 19 && le roll 31 then MID
  else if ge roll 32 && le roll 43 then HIGH
  else if ge roll 44 && le roll 54 then EXTREME
  else UNKNOWN.

Definition getClassification (roll : num) : Classification :=
  if le roll 31 then KECIL else BESAR.

(** ** Numeric trend *)

Definition calculateTrend (roll1 roll2 : num) : Trend :=
  let diff := sub roll2 roll1 in
  if gt diff 0 then mkTrend naik diff
  else if lt diff 0 then mkTrend turun diff
  else mkTrend stabil diff.

(** ** Form handling *)

(** The record built by [handleFormSubmit]. *)
Definition newGame (roll1 roll2 : num) : game :=
  {| roll1 := roll1;
     roll2 := roll2;
     state1 := getState roll1;
     state2 := getState roll2;
     trend := calculateTrend roll1 roll2;
     classification := getClassification roll2 |}.

(** [handleFormSubmit], from the two values [parseInt] returns on the text
    of the fields: the log is left alone when the range check rejects them,
    and gains one round otherwise.  The check is written with four
    comparisons, each of which is false on [NaN]. *)
Definition handleFormSubmit (roll1 roll2 : num) (games : list game) : list game :=
  if lt roll1 6 || gt roll1 54 || lt roll2 6 || gt roll2 54
  then games
  else games ++ [newGame roll1 roll2].

(** ** Objects keyed by a state name

    Properties are kept in insertion order, which is the order
    [Object.values] and [Object.entries] enumerate them in. *)

Definition obj (V : Type) : Type := list (State * V).

(** [o[k]]: [None] is [undefined]. *)
Fixpoint get {V} (o : obj V) (k : State) : option V :=
  match o with
  | [] => None
  | (k', v) :: rest => if State_eqb k k' then Some v else get rest k
  end.

(** [o[k] = v]: an existing property keeps its place, a new one is
    appended. *)
Fixpoint set {V} (o : obj V) (k : State) (v : V) : obj V :=
  match o with
  | [] => [(k, v)]
  | (k', v') :: rest =>
      if State_eqb k k' then (k', v) :: rest else (k', v') :: set rest k v
  end.

Definition values {V} (o : obj V) : list V := map snd o.

Definition entries {V} (o : obj V) : list (State * V) := o.

(** [xs.reduce((a, b) => a + b, 0)]. *)
Definition sum (xs : list num) : num := fold_left add xs (Fin 0).

(** ** Analytics: numeric trend *)

Definition maxMemoryWindow : nat := 20.

(** [Array.prototype.slice(-count)] for a count that is a natural number:
    [slice(-0)] is [slice(0)], the whole array; otherwise the copy starts at
    [max(length - count, 0)]. *)
Definition slice_last {A} (count : nat) (l : list A) : list A :=
  match count with
  | O => l
  | _ => skipn (length l - count) l
  end.

Definition getRecentGames (count : nat) (games : list game) : list game :=
  slice_last count games.

Record TrendAnalysis : Type := mkTrendAnalysis {
  upCount : Z;
  downCount : Z;
  stableCount : Z
}.

Definition countTrend (acc : TrendAnalysis) (g : game) : TrendAnalysis :=
  match direction (trend g) with
  | naik => mkTrendAnalysis (upCount acc + 1) (downCount acc) (stableCount acc)
  | turun => mkTrendAnalysis (upCount acc) (downCount acc + 1) (stableCount acc)
  | stabil => mkTrendAnalysis (upCount acc) (downCount acc) (stableCount acc + 1)
  end.

(** [None] is the [null] returned on an empty log. *)
Definition analyzeTrendDirection (games : list game) : option TrendAnalysis :=
  match games with
  | [] => None
  | _ =>
      let recentGames := getRecentGames maxMemoryWindow games in
      Some (fold_left countTrend recentGames (mkTrendAnalysis 0 0 0))
  end.

Definition dominantOf (trendAnalysis : TrendAnalysis) : string :=
  if (upCount trendAnalysis >? downCount trendAnalysis)
     && (upCount trendAnalysis >? stableCount trendAnalysis)
  then "Naik ↑"
  else if (downCount trendAnalysis >? upCount trendAnalysis)
          && (downCount trendAnalysis >? stableCount trendAnalysis)
  then "Turun ↓"
  else "Stabil →".

Definition getTrendDominant (games : list game) : string :=
  match analyzeTrendDirection games with
  | None => "-"
  | Some trendAnalysis => dominantOf trendAnalysis
  end.

(** ** Analytics: state transition *)

Definition matrix : Type := obj (obj num).

Definition states : list State := [LOW; MID; HIGH; EXTREME].

(** The two nested [forEach] loops that fill the matrix with zeros: each
    row is a fresh object, filled in place through [matrix[from]]. *)
Definition zeroMatrix : matrix :=
  fold_left
    (fun m from =>
       set m from (fold_left (fun row to => set row to (Fin 0)) states []))
    states [].

(** [matrix[fromState][toState]++]. *)
Definition increment (m : matrix) (fromState toState : State) : completion matrix :=
  match get m fromState with
  | None => TypeError
  | Some row => Normal (set m fromState (set row toState (incr (get row toState))))
  end.

(** The [for] loop, entered at index [i] with [prev = games[i - 1]] and
    [rest] the rounds from index [i] on. *)
Fixpoint transitionLoop (m : matrix) (prev : game) (rest : list game)
  : completion matrix :=
  match rest with
  | [] => Normal m
  | g :: rest' =>
      m' <- increment m (state2 prev) (state1 g) ;;
      transitionLoop m' g rest'
  end.

(** [Normal None] is the [null] returned for fewer than two rounds. *)
Definition buildTransitionMatrix (games : list game) : completion (option matrix) :=
  match games with
  | [] | [_] => Normal None
  | g0 :: rest => m <- transitionLoop zeroMatrix g0 rest ;; Normal (Some m)
  end.

Definition getStateTransitionProbability (fromState : State) (games : list game)
  : completion (option (obj num)) :=
  m <- buildTransitionMatrix games ;;
  match m with
  | None => Normal None
  | Some matrix =>
      match get matrix fromState with
      | None => TypeError
      | Some transitions =>
          let total := sum (values transitions) in
          if strict_eq total (Fin 0) then Normal None
          else
            Normal (Some
              (fold_left
                 (fun probability '(toState, count) =>
                    set probability toState (round (mul (div count total) (Fin 100))))
                 (entries transitions) []))
      end
  end.

(** ** Analytics: classification frequency *)

Record Frequency : Type := mkFrequency { freqKECIL : Z; freqBESAR : Z }.

Definition countClass (acc : Frequency) (g : game) : Frequency :=
  match classification g with
  | KECIL => mkFrequency (freqKECIL acc + 1) (freqBESAR acc)
  | BESAR => mkFrequency (freqKECIL acc) (freqBESAR acc + 1)
  end.

Definition getClassificationFrequency (games : list game) : Frequency :=
  match games with
  | [] => mkFrequency 0 0
  | _ =>
      let recent := getRecentGames maxMemoryWindow games in
      fold_left countClass recent (mkFrequency 0 0)
  end.

(** ** Analytics: state dominance *)

Definition getStateDominance (games : list game) : obj num :=
  match games with
  | [] => []
  | _ =>
      let recent := getRecentGames maxMemoryWindow games in
      fold_left
        (fun stateCounts g =>
           set stateCounts (state2 g) (incr (get stateCounts (state2 g))))
        recent
        [(LOW, Fin 0); (MID, Fin 0); (HIGH, Fin 0); (EXTREME, Fin 0)]
  end.

(** [None] is [null]. *)
Definition getLastState (games : list game) : option State :=
  match games with
  | [] => None
  | _ => option_map state2 (nth_error games (length games - 1))
  end.

(** ** Prediction logic *)

Record Reasoning : Type := mkReasoning {
  trendDirection : TrendAnalysis;
  stateDominance : obj num;
  lastState : State;
  stateTransitionProb : option (obj num);
  avgRoll2 : num
}.

Inductive Prediction : Type :=
| CannotPredict (reason : string)
| Predicted (kecilPercent besarPercent : num) (reasoning : Reasoning).

(** [this.games.reduce((sum, g) => sum + g.roll2, 0) / this.games.length]. *)
Definition averageRoll2 (games : list game) : num :=
  div (fold_left (fun sum g => add sum (roll2 g)) games (Fin 0))
      (ofZ (Z.of_nat (length games))).

(** The hybrid scoring block: the pair [(kecilScore, besarScore)] as it
    stands just before the normalization. *)
Definition hybridScoring (trendAnalysis : TrendAnalysis) (stateDominance : obj num)
    (stateTransitionProb : option (obj num)) (avgRoll2 : num) : num * num :=
  let kecilScore := Fin 0 in
  let besarScore := Fin 0 in
  (* 1. numeric trend component *)
  let trendWeight := Fin 0.25 in
  let '(kecilScore, besarScore) :=
    if downCount trendAnalysis >? upCount trendAnalysis
    then (add kecilScore (mul trendWeight (Fin 0.6)), besarScore)
    else (kecilScore, add besarScore (mul trendWeight (Fin 0.6))) in
  (* 2. state dominance component *)
  let stateWeight := Fin 0.30 in
  let totalStateCount := sum (values stateDominance) in
  let lowMidDominance :=
    or0 (div (add (toNumber (get stateDominance LOW))
                  (toNumber (get stateDominance MID))) totalStateCount) in
  let highExtremeDominance :=
    or0 (div (add (toNumber (get stateDominance HIGH))
                  (toNumber (get stateDominance EXTREME))) totalStateCount) in
  let kecilScore := add kecilScore (mul stateWeight lowMidDominance) in
  let besarScore := add besarScore (mul stateWeight highExtremeDominance) in
  (* 3. state transition component *)
  let transitionWeight := Fin 0.25 in
  let '(kecilScore, besarScore) :=
    match stateTransitionProb with
    | Some prob =>
        let lowMidTransitionProb :=
          or0 (div (add (or0 (toNumber (get prob LOW)))
                        (or0 (toNumber (get prob MID)))) (Fin 100)) in
        let highExtremeTransitionProb :=
          or0 (div (add (or0 (toNumber (get prob HIGH)))
                        (or0 (toNumber (get prob EXTREME)))) (Fin 100)) in
        (add kecilScore (mul transitionWeight lowMidTransitionProb),
         add besarScore (mul transitionWeight highExtremeTransitionProb))
    | None => (kecilScore, besarScore)
    end in
  (* 4. distance from center component *)
  let centerWeight := Fin 0.20 in
  let CENTER := Fin 30 in
  let distanceFromCenter := abs (sub avgRoll2 CENTER) in
  let maxDistance := Fin 24 in
  if lt avgRoll2 CENTER
  then (add kecilScore
            (mul centerWeight (sub (Fin 1) (div distanceFromCenter maxDistance))),
        besarScore)
  else (kecilScore,
        add besarScore
            (mul centerWeight (sub (Fin 1) (div distanceFromCenter maxDistance)))).

(** The inputs of the scoring block, in the order the code computes them
    ([classificationFreq] is computed too, and never read).  With five
    rounds or more the log is not empty, so [analyzeTrendDirection] and
    [getLastState] are not [null]; on a [null] the later property read
    would throw. *)
Definition predictionInputs (games : list game)
  : completion (TrendAnalysis * obj num * State * option (obj num) * num) :=
  match analyzeTrendDirection games, getLastState games with
  | Some trendAnalysis, Some lastState =>
      let stateDominance := getStateDominance games in
      stateTransitionProb <- getStateTransitionProbability lastState games ;;
      let avgRoll2 := averageRoll2 games in
      Normal (trendAnalysis, stateDominance, lastState, stateTransitionProb, avgRoll2)
  | _, _ => TypeError
  end.

(** [kecilScore] and [besarScore] of a log, as [predictNextOutcome] has
    them when it reaches the normalization. *)
Definition scores (games : list game) : completion (num * num) :=
  inputs <- predictionInputs games ;;
  let '(trendAnalysis, stateDominance, _, stateTransitionProb, avgRoll2) := inputs in
  Normal (hybridScoring trendAnalysis stateDominance stateTransitionProb avgRoll2).

Definition predictNextOutcome (games : list game) : completion Prediction :=
  if (length games <? 5)%nat
  then Normal (CannotPredict "Data belum cukup (minimal 5 game)")
  else
    inputs <- predictionInputs games ;;
    let '(trendAnalysis, stateDominance, lastState, stateTransitionProb, avgRoll2) := inputs in
    let '(kecilScore, besarScore) :=
      hybridScoring trendAnalysis stateDominance stateTransitionProb avgRoll2 in
    (* normalization *)
    let totalScore := add kecilScore besarScore in
    let kecilPercent := round (mul (div kecilScore totalScore) (Fin 100)) in
    let besarPercent := sub (Fin 100) kecilPercent in
    Normal (Predicted kecilPercent besarPercent
              (mkReasoning trendAnalysis stateDominance lastState stateTransitionProb
                 (div (round (mul avgRoll2 (Fin 10))) (Fin 10)))).

(** ** Logs the program can hold *)

(** A round as [handleFormSubmit] stores it when both fields hold an
    integer: the two rolls are integers of [6,54] and the derived fields
    are those computed at creation. *)
Definition wellFormed (g : game) : Prop :=
  exists r1 r2 : Z, 6 <= r1 <= 54 /\ 6 <= r2 <= 54 /\ g = newGame r1 r2.

Definition validLog (games : list game) : Prop := Forall wellFormed games.

(** The logs the form handler can produce, starting from the empty log,
    when every field submitted holds an integer. *)
Inductive reachable : list game -> Prop :=
| reachable_empty : reachable []
| reachable_submit (roll1 roll2 : Z) (games : list game) :
    reachable games -> reachable (handleFormSubmit roll1 roll2 games).

Definition known (s : State) : bool :=
  match s with UNKNOWN => false | _ => true end.

(** Rounds whose two states are among the four named bands. *)
Definition knownStates (g : game) : Prop :=
  state1 g <> UNKNOWN /\ state2 g <> UNKNOWN.

Definition statesKnown (games : list game) : Prop := Forall knownStates games.

(** Some round of the log has an UNKNOWN state. *)
Definition hasUnknown (games : list game) : Prop :=
  exists g, In g games /\ (state1 g = UNKNOWN \/ state2 g = UNKNOWN).

(** Some round other than the last ends in UNKNOWN: the states the loop
    of [buildTransitionMatrix] uses as a row name are the [state2] of
    rounds [0 .. length - 2]. *)
Definition unknownSource (games : list game) : bool :=
  existsb (fun g => negb (known (state2 g))) (removelast games).

(** ** Reference quantities the properties are stated against *)

Definition Direction_eqb (a b : Direction) : bool :=
  match a, b with
  | naik, naik | turun, turun | stabil, stabil => true
  | _, _ => false
  end.

(** Number of rounds of [l] whose trend points in direction [d]. *)
Definition countDirection (d : Direction) (l : list game) : Z :=
  Z.of_nat (length (filter (fun g => Direction_eqb (direction (trend g)) d) l)).

(** Number of rounds of [l] whose second roll is in state [s]. *)
Definition countState2 (s : State) (l : list game) : Z :=
  Z.of_nat (length (filter (fun g => State_eqb (state2 g) s) l)).

(** Number of rounds of [l] classified [c]. *)
Definition countClassification (c : Classification) (l : list game) : Z :=
  Z.of_nat (length (filter
    (fun g => match classification g, c with
              | KECIL, KECIL | BESAR, BESAR => true
              | _, _ => false
              end) l)).

(** Number of indices [i] with [1 <= i < length games] such that round
    [i - 1] ends in state [A] and round [i] starts in state [B]. *)
Definition pairCount (A B : State) (games : list game) : Z :=
  Z.of_nat (length (filter
    (fun i => match nth_error games (i - 1), nth_error games i with
              | Some p, Some g => State_eqb (state2 p) A && State_eqb (state1 g) B
              | _, _ => false
              end)
    (seq 1 (length games - 1)))).

(** Number of transitions of the whole log that leave state [A]. *)
Definition rowTotal (A : State) (games : list game) : Z :=
  pairCount A LOW games + pairCount A MID games
  + pairCount A HIGH games + pairCount A EXTREME games.

(** The percentage as the specification words it,
    [round(100 * count / rowTotal)], a half rounding up. *)
Definition roundedPercent (count total : Z) : Z :=
  Qfloor (100 * inject_Z count / inject_Z total + (1 # 2)).

(** Sum of the second rolls of a list of pairs of integer rolls. *)
Definition sumRoll2 (rolls : list (Z * Z)) : Z :=
  fold_right (fun pair acc => snd pair + acc) 0 rolls.

(** The object [{LOW: f LOW, MID: f MID, HIGH: f HIGH, EXTREME: f EXTREME}]. *)
Definition tableOf (f : State -> Z) : obj num :=
  map (fun s => (s, ofZ (f s))) states.

(** The 4x4 matrix whose cell [A][B] holds [f A B]. *)
Definition matrixOf (f : State -> State -> Z) : matrix :=
  map (fun A => (A, tableOf (f A))) states.

(** [f] with one more transition recorded from [A] to [B]. *)
Definition bump (A B : State) (f : State -> State -> Z) : State -> State -> Z :=
  fun a b => f a b + (if State_eqb A a && State_eqb B b then 1 else 0).

(** [m[A][B]], [None] when the row or the cell is absent. *)
Definition cell (m : matrix) (A B : State) : option num :=
  match get m A with
  | Some row => get row B
  | None => None
  end.

(** The UNKNOWN column of a matrix is absent or holds [NaN]. *)
Definition unknownColumnNaN (m : matrix) : Prop :=
  forall A, cell m A UNKNOWN = None \/ cell m A UNKNOWN = Some NaN.

(** The two groupings of states compared with the KECIL/BESAR split. *)
Definition lowOrMid (s : State) : bool :=
  match s with LOW | MID => true | _ => false end.

Definition highOrExtreme (s : State) : bool :=
  match s with HIGH | EXTREME => true | _ => false end.

(** A roll on which the binary split and the state grouping disagree:
    KECIL without LOW-or-MID, or BESAR without HIGH-or-EXTREME. *)
Definition splitsDisagree (roll : Z) : Prop :=
  (getClassification roll = KECIL /\ lowOrMid (getState roll) = false) \/
  (getClassification roll = BESAR /\ highOrExtreme (getState roll) = false).

(** Sign of a number: a finite value that is at least zero, above zero, or
    at least [c]. *)
Definition nonneg (n : num) : Prop :=
  match n with Fin q => (0 <= q)%Q | _ => False end.

Definition strictlyPositive (n : num) : Prop :=
  match n with Fin q => (0 < q)%Q | _ => False end.

Definition atLeast (c : Q) (n : num) : Prop :=
  match n with Fin q => (c <= q)%Q | _ => False end.

(** ** Sample logs *)

Definition logOf (rolls : list (Z * Z)) : list game :=
  map (fun '(r1, r2) => newGame (ofZ r1) (ofZ r2)) rolls.

(** Five well-formed rounds. *)
Definition logFive : list game :=
  logOf [(10, 20); (30, 40); (50, 12); (22, 33); (44, 45)].

(** Three rounds whose [state1] are LOW, MID, HIGH and whose [state2] are
    LOW, HIGH, HIGH: the transitions are LOW to MID and HIGH to HIGH. *)
Definition logCarryOver : list game := logOf [(10, 10); (20, 40); (40, 40)].

(** Four rounds whose three transitions leave LOW for LOW, MID and HIGH. *)
Definition logThirds : list game :=
  logOf [(10, 10); (10, 10); (20, 10); (40, 10)].

(** Twenty identical rounds, and a round to put in front of them. *)
Definition logTwenty : list game := logOf (repeat (10, 20) 20).

Definition roundOldest : game := newGame 40 50.

(** A two-round log whose second round starts from a roll below the
    range, so that [UNKNOWN] is the destination of its only transition. *)
Definition logUnknownDestination : list game := logOf [(10, 10); (5, 10)].

(** ** Data management *)

(** [clearAllData]: the log is emptied when the user confirms the dialog,
    and left alone otherwise. *)
Definition clearAllData (confirmed : bool) (games : list game) : list game :=
  if confirmed then [] else games.

(** What the user can do to the log: submit the form, [roll1] and [roll2]
    being what [parseInt] returns on the text of the two fields, or press
    the clear button and answer the confirmation dialog. *)
Inductive action : Type :=
| Submit (roll1 roll2 : num)
| Clear (confirmed : bool).

Definition perform (games : list game) (a : action) : list game :=
  match a with
  | Submit roll1 roll2 => handleFormSubmit roll1 roll2 games
  | Clear confirmed => clearAllData confirmed games
  end.

(** A session: the actions applied one after the other. *)
Definition run (actions : list action) (games : list game) : list game :=
  fold_left perform actions games.

(** The form submitted once for each pair, in order. *)
Definition submitAll (rolls : list (num * num)) (games : list game) : list game :=
  fold_left (fun log '(roll1, roll2) => handleFormSubmit roll1 roll2 log) rolls games.

(** The rounds built from a list of pairs. *)
Definition stored (rolls : list (num * num)) : list game :=
  map (fun '(roll1, roll2) => newGame roll1 roll2) rolls.

(** A roll the range check lets through: a finite number of [6,54], or
    [NaN]. *)
Definition passesCheck (roll : num) : bool :=
  match roll with
  | Fin q => Qle_bool 6 q && Qle_bool q 54
  | NaN => true
  | Inf _ => false
  end.

Definition passes (pair : num * num) : bool :=
  passesCheck (fst pair) && passesCheck (snd pair).

(** What [parseInt] returns when it finds digits to read: an integer, or an
    infinity when they exceed the range of a Number.  On any other text,
    the empty one included, it returns [NaN]. *)
Definition parsedNumber (n : num) : Prop :=
  (exists z : Z, n = ofZ z) \/ (exists negative : bool, n = Inf negative).

Definition parsed (n : num) : Prop := n = NaN \/ parsedNumber n.

(** A submission whose two fields hold a number. *)
Definition numeric (a : action) : Prop :=
  match a with
  | Submit roll1 roll2 => parsedNumber roll1 /\ parsedNumber roll2
  | Clear _ => True
  end.

(** The second roll of a pair is [NaN]. *)
Definition secondRollNaN (pair : num * num) : bool :=
  match snd pair with NaN => true | _ => false end.

(** An integer roll of [6,54], and a pair of such rolls. *)
Definition inRange (roll : Z) : bool := (6 <=? roll) && (roll <=? 54).

Definition accepted (pair : Z * Z) : bool := inRange (fst pair) && inRange (snd pair).

(** The result is a prediction, not the sentinel and not a failure. *)
Definition predicts (c : completion Prediction) : bool :=
  match c with
  | Normal (Predicted _ _ _) => true
  | _ => false
  end.

(** Some round of the recent window ends in UNKNOWN. *)
Definition unknownInWindow (games : list game) : bool :=
  existsb (fun g => negb (known (state2 g)))
          (getRecentGames maxMemoryWindow games).

(** Position of a state among the bands, from the lowest up. *)
Definition band (s : State) : Z :=
  match s with
  | LOW => 0 | MID => 1 | HIGH => 2 | EXTREME => 3 | UNKNOWN => 4
  end.

(** A number that is [NaN] or a finite value that is not negative. *)
Definition nanOrNonneg (n : num) : Prop := n = NaN \/ nonneg n.

(** Every cell of every row is [NaN] or not negative. *)
Definition cellsNanOrNonneg (m : matrix) : Prop :=
  forall A row, get m A = Some row -> Forall nanOrNonneg (values row).

(** Some pair has its second roll outside [6,54]. *)
Definition secondRollOutside (rolls : list (Z * Z)) : bool :=
  existsb (fun pair => negb (inRange (snd pair))) rolls.

(** A round that ends in a named state on an integer roll of [6,54]. *)
Definition secondRollValid (g : game) : Prop :=
  state2 g <> UNKNOWN /\ exists r2 : Z, 6 <= r2 <= 54 /\ roll2 g = ofZ r2.

(** Five rounds, one of which starts from a roll above the range. *)
Definition logFirstRollOutside : list (Z * Z) :=
  [(10, 20); (60, 40); (50, 12); (22, 33); (44, 45)].

(** ** Rendering: the values the panels show

    The render methods write markup into the page.  What is modelled here
    is the values they compute and interpolate into that markup, with the
    early returns and the choices between texts as the code has them; the
    surrounding markup and the canvas calls are left out. *)

(** [Math.max(a, b)]. *)
Definition mathMax (a b : num) : num :=
  match a, b with
  | NaN, _ | _, NaN => NaN
  | _, _ => if lt a b then b else a
  end.

(** [s.includes(needle)]. *)
Definition includes (needle s : string) : bool :=
  match index 0 needle s with
  | Some _ => true
  | None => false
  end.

Definition getTrendClass (direction : string) : string :=
  ("trend-" ++ direction)%string.

(** The summary [renderTrendChart] writes under the chart: the number of
    rounds it announces, the three counts, and the label of the dominant
    trend with its style class.  [None] is the early return on an empty
    window. *)
Record TrendSummary : Type := mkTrendSummary {
  shownGames : nat;
  shownCounts : TrendAnalysis;
  dominanceClass : string;
  dominanceLabel : string
}.

Definition renderTrendSummary (games : list game)
  : completion (option TrendSummary) :=
  let recent := getRecentGames 15 games in
  if (length recent =? 0)%nat then Normal None
  else
    match analyzeTrendDirection games with
    | None => TypeError
    | Some trendAnalysis =>
        Normal (Some
          (mkTrendSummary
             (length recent)
             trendAnalysis
             (getTrendClass
                (if includes "↑" (getTrendDominant games) then "naik"
                 else if includes "↓" (getTrendDominant games) then "turun"
                 else "stabil"))
             (getTrendDominant games)))
    end.

(** A cell of the transition table: a percentage with the opacity of its
    background, or a dash. *)
Inductive MatrixCell : Type :=
| DataCell (percent : option num) (opacity : num)
| DashCell.

Definition renderMatrixRow (games : list game) (fromState : State)
  : completion (list MatrixCell) :=
  probability <- getStateTransitionProbability fromState games ;;
  match probability with
  | Some prob =>
      Normal (map (fun toState =>
                     let percent := get prob toState in
                     let intensity := div (toNumber percent) (Fin 100) in
                     DataCell percent (mul intensity (Fin 0.6)))
                  states)
  | None => Normal (map (fun _ => DashCell) states)
  end.

Fixpoint renderMatrixRows (games : list game) (fromStates : list State)
  : completion (list (State * list MatrixCell)) :=
  match fromStates with
  | [] => Normal []
  | fromState :: others =>
      row <- renderMatrixRow games fromState ;;
      rows <- renderMatrixRows games others ;;
      Normal ((fromState, row) :: rows)
  end.

(** [renderTransitionMatrix]: [None] is the not-enough-data message. *)
Definition renderTransitionMatrix (games : list game)
  : completion (option (list (State * list MatrixCell))) :=
  m <- buildTransitionMatrix games ;;
  match m with
  | None => Normal None
  | Some _ =>
      if (length games <? 2)%nat then Normal None
      else rows <- renderMatrixRows games states ;; Normal (Some rows)
  end.

(** The prediction panel of [renderPrediction]. *)
Record PredictionPanel : Type := mkPredictionPanel {
  shownKECIL : num;
  shownBESAR : num;
  dominantClass : string;
  dominantLabel : Classification;
  confidence : num;
  trendText : string;
  centerText : string;
  transitionText : option (num * num * num * num)
}.

(** [inl reason] is the empty state shown when [canPredict] is false. *)
Definition renderPrediction (games : list game)
  : completion (string + PredictionPanel) :=
  prediction <- predictNextOutcome games ;;
  match prediction with
  | CannotPredict reason => Normal (inl reason)
  | Predicted kecil besar reasoning =>
      Normal (inr
        (mkPredictionPanel
           kecil
           besar
           (if lt besar kecil then "prediction-kecil" else "prediction-besar")
           (if lt besar kecil then KECIL else BESAR)
           (mathMax kecil besar)
           (if downCount (trendDirection reasoning)
               >? upCount (trendDirection reasoning)
            then "Cenderung menurun (KECIL)"
            else "Cenderung meningkat (BESAR)")
           (if lt (avgRoll2 reasoning) (Fin 30)
            then "Lebih dekat KECIL"
            else "Lebih dekat BESAR")
           (match stateTransitionProb reasoning with
            | Some prob =>
                Some (or0 (toNumber (get prob LOW)),
                      or0 (toNumber (get prob MID)),
                      or0 (toNumber (get prob HIGH)),
                      or0 (toNumber (get prob EXTREME)))
            | None => None
            end)))
  end.


(** A data cell showing an integer percentage between 0 and 100 on a
    background of opacity between 0 and 0.6. *)
Definition percentCell (c : MatrixCell) : Prop :=
  exists (p : Z) (o : Q),
    c = DataCell (Some (ofZ p)) (Fin o) /\ 0 <= p <= 100 /\ (0 <= o <= 6 # 10)%Q.

(** The point [renderTrendChart] plots for the round at index [i] of
    [points] rounds, for one of its two rolls, on a canvas of the given
    width and height (both integers, as the canvas reports them). *)
Definition chartPoint (canvasWidth canvasHeight : Z) (points i : nat) (roll : num)
  : num * num :=
  let padding := Fin 50 in
  let chartWidth := sub (ofZ canvasWidth) (mul (Fin 2) padding) in
  let chartHeight := sub (ofZ canvasHeight) (mul (Fin 2) padding) in
  let maxValue := Fin 54 in
  let minValue := Fin 6 in
  let x :=
    add padding
        (mul (div chartWidth (sub (ofZ (Z.of_nat points)) (Fin 1)))
             (ofZ (Z.of_nat i))) in
  let y :=
    sub (add padding chartHeight)
        (mul (div (sub roll minValue) (sub maxValue minValue)) chartHeight) in
  (x, y).

(** The points of the line drawn for [roll1] (first component) and for
    [roll2] (second component), over the last 15 rounds. *)
Definition chartLines (canvasWidth canvasHeight : Z) (games : list game)
  : list ((num * num) * (num * num)) :=
  let recent := getRecentGames 15 games in
  map (fun '(i, g) =>
         (chartPoint canvasWidth canvasHeight (length recent) i (roll1 g),
          chartPoint canvasWidth canvasHeight (length recent) i (roll2 g)))
      (combine (seq 0 (length recent)) recent).

(** A point of the plotting area of the canvas: at least 50 away from the
    left, top and bottom edges, and more than 49 away from the right edge.
    The last abscissa is [padding + (chartWidth / (n - 1)) * (n - 1)],
    which is [width - 50] up to the rounding of the quotient and of the
    product; the bound on the right is stated with a unit of slack so as
    not to depend on that rounding. *)
Definition insideChart (canvasWidth canvasHeight : Z) (point : num * num) : Prop :=
  exists x y : Q,
    point = (Fin x, Fin y) /\
    (50 <= x < inject_Z canvasWidth - 49)%Q /\
    (50 <= y <= inject_Z canvasHeight - 50)%Q.

(** The pairs submitted since the last confirmed clear, in order. *)
Definition sinceLastClear (actions : list action) : list (num * num) :=
  fold_left
    (fun pairs a =>
       match a with
       | Submit roll1 roll2 => pairs ++ [(roll1, roll2)]
       | Clear true => []
       | Clear false => pairs
       end)
    actions [].

(** Four rounds; the third starts from a roll above the range, right after
    a round that ends in LOW. *)
Definition logPoisonedRow : list game :=
  logOf [(10, 10); (20, 10); (60, 10); (40, 10)].

(** * Properties *)

Lemma State_eqb_spec (a b : State) : reflect (a = b) (State_eqb a b).
Proof. destruct a, b; simpl; constructor; congruence. Qed.

Lemma State_eqb_refl (a : State) : State_eqb a a = true.
Proof. now destruct a. Qed.

(** ** Integer rolls

    On integers the comparisons, the subtraction and the classifiers are
    those of [Z]. *)

Lemma lt_ofZ (a b : Z) : lt (ofZ a) (ofZ b) = (a <? b).
Proof.
  unfold lt, ofZ, inject_Z, Qcompare, Z.ltb; cbn [Qnum Qden].
  rewrite !Z.mul_1_r; reflexivity.
Qed.

Lemma lt_Fin (x y : Q) : lt (Fin x) (Fin y) = true <-> (x < y)%Q.
Proof.
  cbn [lt]; rewrite Qlt_alt.
  destruct (x ?= y)%Q; split; intros; try discriminate; reflexivity.
Qed.

Lemma lt_Fin_false (x y : Q) : lt (Fin x) (Fin y) = false <-> (y <= x)%Q.
Proof.
  split; intros H.
  - apply Qnot_lt_le; intros L; apply lt_Fin in L; congruence.
  - apply Bool.not_true_is_false; intros L; apply lt_Fin in L; lra.
Qed.

Lemma Qle_bool_false (x y : Q) : Qle_bool x y = false <-> (y < x)%Q.
Proof.
  split; intros H.
  - apply Qnot_le_lt; intros L; apply Qle_bool_iff in L; congruence.
  - apply Bool.not_true_is_false; intros L; apply Qle_bool_iff in L; lra.
Qed.

Lemma le_ofZ (a b : Z) : le (ofZ a) (ofZ b) = (a <=? b).
Proof.
  unfold le; cbn [ofZ]; fold (ofZ a); fold (ofZ b); rewrite lt_ofZ.
  unfold Z.leb, Z.ltb; rewrite (Z.compare_antisym a b).
  now destruct (a ?= b).
Qed.

Lemma gt_ofZ (a b : Z) : gt (ofZ a) (ofZ b) = (a >? b).
Proof. unfold gt; rewrite lt_ofZ; symmetry; apply Z.gtb_ltb. Qed.

Lemma ge_ofZ (a b : Z) : ge (ofZ a) (ofZ b) = (a >=? b).
Proof. unfold ge; rewrite le_ofZ; symmetry; apply Z.geb_leb. Qed.

Lemma sub_ofZ (a b : Z) : sub (ofZ a) (ofZ b) = ofZ (a - b).
Proof.
  unfold sub, neg, add, ofZ, inject_Z, Qplus, Qopp; cbn [Qnum Qden].
  do 2 f_equal; lia.
Qed.

Lemma getState_ofZ (roll : Z) :
  getState roll
  = if (roll >=? 6) && (roll <=? 18) then LOW
    else if (roll >=? 19) && (roll <=? 31) then MID
    else if (roll >=? 32) && (roll <=? 43) then HIGH
    else if (roll >=? 44) && (roll <=? 54) then EXTREME
    else UNKNOWN.
Proof. unfold getState; now rewrite !ge_ofZ, !le_ofZ. Qed.

Lemma getClassification_ofZ (roll : Z) :
  getClassification roll = if roll <=? 31 then KECIL else BESAR.
Proof. unfold getClassification; now rewrite le_ofZ. Qed.

Lemma calculateTrend_ofZ (roll1 roll2 : Z) :
  calculateTrend roll1 roll2
  = if roll2 - roll1 >? 0 then mkTrend naik (roll2 - roll1)
    else if roll2 - roll1 <? 0 then mkTrend turun (roll2 - roll1)
    else mkTrend stabil (roll2 - roll1).
Proof. unfold calculateTrend; now rewrite sub_ofZ, gt_ofZ, lt_ofZ. Qed.

(** Every comparison with [NaN] is false, so [NaN] is in no band, is
    classified BESAR, and gives a stable trend. *)
Lemma getState_NaN : getState NaN = UNKNOWN.
Proof. reflexivity. Qed.

Lemma getClassification_NaN : getClassification NaN = BESAR.
Proof. reflexivity. Qed.

Lemma calculateTrend_NaN_l (roll2 : num) :
  calculateTrend NaN roll2 = mkTrend stabil NaN.
Proof. now destruct roll2. Qed.


(** ** Classifier *)

Ltac bands :=
  repeat match goal with
    | |- context [?a >=? ?b] => destruct (Z.geb_spec a b); try (exfalso; lia)
    | |- context [?a <=? ?b] => destruct (Z.leb_spec a b); try (exfalso; lia)
    | |- context [?a >? ?b] => destruct (Z.gtb_spec a b); try (exfalso; lia)
    | |- context [?a <? ?b] => destruct (Z.ltb_spec a b); try (exfalso; lia)
    end; cbn [andb orb].

Lemma getState_cases (r : Z) :
  (6 <= r <= 18 /\ getState r = LOW) \/
  (19 <= r <= 31 /\ getState r = MID) \/
  (32 <= r <= 43 /\ getState r = HIGH) \/
  (44 <= r <= 54 /\ getState r = EXTREME) \/
  ((r < 6 \/ 54 < r) /\ getState r = UNKNOWN).
Proof.
  rewrite getState_ofZ; bands;
    first [ left; split; [lia | reflexivity]
          | right; left; split; [lia | reflexivity]
          | right; right; left; split; [lia | reflexivity]
          | right; right; right; left; split; [lia | reflexivity]
          | right; right; right; right; split; [lia | reflexivity] ].
Qed.

Lemma getClassification_cases (roll : Z) :
  (roll <= 31 /\ getClassification roll = KECIL) \/
  (32 <= roll /\ getClassification roll = BESAR).
Proof.
  rewrite getClassification_ofZ; destruct (Z.leb_spec roll 31);
    [left | right]; split; try reflexivity; lia.
Qed.

Ltac classify r :=
  destruct (getState_cases r) as [[? ->] | [[? ->] | [[? ->] | [[? ->] | [? ->]]]]].

(** C7. [getState] follows the four bands LOW=[6,18], MID=[19,31],
    HIGH=[32,43], EXTREME=[44,54]: each label is returned exactly on its
    band, and UNKNOWN exactly outside [6,54]. *)
Theorem getState_bands (r : Z) :
  (getState r = LOW <-> 6 <= r <= 18) /\
  (getState r = MID <-> 19 <= r <= 31) /\
  (getState r = HIGH <-> 32 <= r <= 43) /\
  (getState r = EXTREME <-> 44 <= r <= 54) /\
  (getState r = UNKNOWN <-> r < 6 \/ 54 < r).
Proof.
  classify r; repeat split; intros; try discriminate; lia.
Qed.

(** C8, as stated, fails: no roll of [6,54] separates the KECIL/BESAR split
    from the LOW-or-MID / HIGH-or-EXTREME grouping. *)
Lemma splits_never_disagree_in_range :
  ~ ((forall roll : Z, getClassification roll = KECIL <-> roll <= 31) /\
     exists roll, 6 <= roll <= 54 /\ splitsDisagree roll).
Proof.
  intros [_ [roll [Hr H]]]; revert H; unfold splitsDisagree.
  destruct (getClassification_cases roll) as [[? ->] | [? ->]];
    classify roll; cbn [lowOrMid highOrExtreme];
    intros [[? ?] | [? ?]]; try discriminate; lia.
Qed.

(** C8, amended. KECIL is returned exactly for rolls up to 31 and BESAR from
    32 on; the threshold 32 is the lower end of the HIGH band, so KECIL is
    LOW-or-MID and BESAR is HIGH-or-EXTREME on every roll of [6,54], and the
    two differ only where [getState] answers UNKNOWN. *)
Theorem getClassification_split (roll : Z) :
  (getClassification roll = KECIL <-> roll <= 31) /\
  (getClassification roll = BESAR <-> 32 <= roll) /\
  getClassification 31 = KECIL /\
  getClassification 32 = BESAR /\
  (getClassification roll = KECIL <->
     lowOrMid (getState roll) = true \/ roll < 6) /\
  (getClassification roll = BESAR <->
     highOrExtreme (getState roll) = true \/ 54 < roll) /\
  (splitsDisagree roll <-> roll < 6 \/ 54 < roll).
Proof.
  unfold splitsDisagree.
  destruct (getClassification_cases roll) as [[? ->] | [? ->]];
    classify roll; cbn [lowOrMid highOrExtreme];
    repeat split; intros;
    repeat match goal with
      | H : _ \/ _ |- _ => destruct H
      | H : _ /\ _ |- _ => destruct H
      end; try discriminate; try lia; auto.
Qed.

(** ** Numbers *)

Lemma add_ofZ (a b : Z) : add (ofZ a) (ofZ b) = ofZ (a + b).
Proof. unfold add, ofZ, inject_Z, Qplus; simpl; do 2 f_equal; lia. Qed.

Lemma incr_ofZ (a : Z) : incr (Some (ofZ a)) = ofZ (a + 1).
Proof. exact (add_ofZ a 1). Qed.

(** ** The recent window *)

Lemma getRecentGames_skipn (games : list game) :
  getRecentGames maxMemoryWindow games = skipn (length games - 20) games.
Proof. reflexivity. Qed.

Lemma getRecentGames_length (games : list game) :
  length (getRecentGames maxMemoryWindow games) = Nat.min 20 (length games).
Proof. rewrite getRecentGames_skipn, length_skipn; lia. Qed.

Lemma getRecentGames_suffix (games : list game) :
  firstn (length games - 20) games ++ getRecentGames maxMemoryWindow games = games.
Proof. rewrite getRecentGames_skipn; apply firstn_skipn. Qed.

Lemma getRecentGames_short (games : list game) :
  (length games <= 20)%nat -> getRecentGames maxMemoryWindow games = games.
Proof.
  intros H; rewrite getRecentGames_skipn.
  replace (length games - 20)%nat with 0%nat by lia; reflexivity.
Qed.

Lemma getRecentGames_drop_oldest (oldest : game) (rest : list game) :
  (20 <= length rest)%nat ->
  getRecentGames maxMemoryWindow (oldest :: rest)
  = getRecentGames maxMemoryWindow rest.
Proof.
  intros H; rewrite !getRecentGames_skipn; simpl length.
  replace (S (length rest) - 20)%nat with (S (length rest - 20)) by lia.
  reflexivity.
Qed.

Lemma getRecentGames_nonempty (games : list game) :
  games <> [] -> getRecentGames maxMemoryWindow games <> [].
Proof.
  intros H E; apply H, length_zero_iff_nil.
  pose proof (getRecentGames_length games) as L; rewrite E in L; cbn [length] in L; lia.
Qed.

Lemma getRecentGames_idem (games : list game) :
  getRecentGames maxMemoryWindow (getRecentGames maxMemoryWindow games)
  = getRecentGames maxMemoryWindow games.
Proof.
  apply getRecentGames_short; rewrite getRecentGames_length; lia.
Qed.

(** ** Trend aggregation *)

Lemma fold_countTrend (l : list game) (acc : TrendAnalysis) :
  fold_left countTrend l acc
  = mkTrendAnalysis (upCount acc + countDirection naik l)
                    (downCount acc + countDirection turun l)
                    (stableCount acc + countDirection stabil l).
Proof.
  revert acc; induction l as [|g l IH]; intros [u d s].
  - unfold countDirection; simpl; f_equal; lia.
  - simpl fold_left; rewrite IH; unfold countTrend, countDirection.
    cbn [filter]; destruct (direction (trend g));
      cbn [Direction_eqb upCount downCount stableCount length];
      rewrite ?Nat2Z.inj_succ; f_equal; lia.
Qed.

Lemma analyzeTrendDirection_counts (games : list game) :
  games <> [] ->
  analyzeTrendDirection games
  = Some (mkTrendAnalysis
            (countDirection naik (getRecentGames maxMemoryWindow games))
            (countDirection turun (getRecentGames maxMemoryWindow games))
            (countDirection stabil (getRecentGames maxMemoryWindow games))).
Proof.
  destruct games as [|g l]; [congruence | intros _].
  unfold analyzeTrendDirection; rewrite fold_countTrend; reflexivity.
Qed.

(** C6. On a non-empty log [getTrendDominant] answers "Naik" exactly when
    the up count strictly exceeds both others, "Turun" exactly when the
    down count strictly exceeds both others, and "Stabil" in every other
    case; so every tie for the highest count, up against down included,
    gives "Stabil". *)
Theorem getTrendDominant_strict (games : list game) :
  games <> [] ->
  exists t,
    analyzeTrendDirection games = Some t /\
    upCount t = countDirection naik (getRecentGames maxMemoryWindow games) /\
    downCount t = countDirection turun (getRecentGames maxMemoryWindow games) /\
    stableCount t = countDirection stabil (getRecentGames maxMemoryWindow games) /\
    (getTrendDominant games = "Naik ↑"%string <->
       upCount t > downCount t /\ upCount t > stableCount t) /\
    (getTrendDominant games = "Turun ↓"%string <->
       downCount t > upCount t /\ downCount t > stableCount t) /\
    (getTrendDominant games = "Stabil →"%string <->
       ~ (upCount t > downCount t /\ upCount t > stableCount t) /\
       ~ (downCount t > upCount t /\ downCount t > stableCount t)) /\
    (upCount t = downCount t \/
     (upCount t = stableCount t /\ downCount t <= upCount t) \/
     (downCount t = stableCount t /\ upCount t <= downCount t) ->
     getTrendDominant games = "Stabil →"%string).
Proof.
  intros Hne. eexists; split; [apply analyzeTrendDirection_counts, Hne|].
  unfold getTrendDominant; rewrite analyzeTrendDirection_counts by assumption.
  cbn [upCount downCount stableCount].
  set (u := countDirection naik _); set (d := countDirection turun _);
    set (s := countDirection stabil _).
  unfold dominantOf; cbn [upCount downCount stableCount].
  repeat split; try reflexivity;
    destruct (Z.gtb_spec u d), (Z.gtb_spec u s), (Z.gtb_spec d u),
      (Z.gtb_spec d s); simpl; intros; try discriminate; try lia;
    try reflexivity; intuition lia.
Qed.

Lemma getTrendDominant_strict_witness :
  exists t,
    analyzeTrendDirection (logOf [(10, 20); (20, 10)]) = Some t /\
    upCount t = 1 /\ downCount t = 1 /\
    getTrendDominant (logOf [(10, 20); (20, 10)]) = "Stabil →"%string.
Proof.
  assert (Hne : logOf [(10, 20); (20, 10)] <> []) by discriminate.
  destruct (getTrendDominant_strict _ Hne)
    as (t & Ht & Hu & Hd & _ & _ & _ & _ & Htie).
  exists t; split; [exact Ht|].
  split; [rewrite Hu; reflexivity|].
  split; [rewrite Hd; reflexivity|].
  apply Htie; left; rewrite Hu, Hd; reflexivity.
Defined.

(** ** Transition matrix *)

Lemma matrixOf_ext (f g : State -> State -> Z) :
  (forall A B, f A B = g A B) -> matrixOf f = matrixOf g.
Proof.
  intros H; unfold matrixOf, tableOf.
  apply map_ext; intros A; f_equal.
  apply map_ext; intros B; now rewrite H.
Qed.

Lemma zeroMatrix_matrixOf : zeroMatrix = matrixOf (fun _ _ => 0).
Proof. reflexivity. Qed.

Lemma get_tableOf (f : State -> Z) (B : State) :
  get (tableOf f) B = if known B then Some (ofZ (f B)) else None.
Proof. now destruct B. Qed.

Lemma get_matrixOf (f : State -> State -> Z) (A : State) :
  get (matrixOf f) A = if known A then Some (tableOf (f A)) else None.
Proof. now destruct A. Qed.

Lemma cell_matrixOf (f : State -> State -> Z) (A B : State) :
  cell (matrixOf f) A B
  = if known A && known B then Some (ofZ (f A B)) else None.
Proof.
  unfold cell; rewrite get_matrixOf; destruct A; simpl;
    try apply get_tableOf; reflexivity.
Qed.

Lemma increment_matrixOf (f : State -> State -> Z) (A B : State) :
  A <> UNKNOWN -> B <> UNKNOWN ->
  increment (matrixOf f) A B = Normal (matrixOf (bump A B f)).
Proof.
  intros HA HB; unfold increment; rewrite get_matrixOf.
  destruct A; try congruence; destruct B; try congruence;
    cbn [known get set matrixOf tableOf states map State_eqb];
    rewrite incr_ofZ; unfold bump; cbn [State_eqb andb];
    rewrite ?Z.add_0_r; reflexivity.
Qed.

Lemma pairCount_single (A B : State) (p : game) : pairCount A B [p] = 0.
Proof. reflexivity. Qed.

Lemma pairCount_cons (A B : State) (p g : game) (rest : list game) :
  pairCount A B (p :: g :: rest)
  = (if State_eqb (state2 p) A && State_eqb (state1 g) B then 1 else 0)
    + pairCount A B (g :: rest).
Proof.
  unfold pairCount. cbn [length]. rewrite !Nat.sub_succ, !Nat.sub_0_r.
  cbn [seq filter]. rewrite <- seq_shift.
  assert (E : forall l : list nat,
    Forall (fun i => (1 <= i)%nat) l ->
    length (filter
      (fun i => match nth_error (p :: g :: rest) (i - 1),
                      nth_error (p :: g :: rest) i with
                | Some p0, Some g0 =>
                    State_eqb (state2 p0) A && State_eqb (state1 g0) B
                | _, _ => false
                end) (map S l))
    = length (filter
      (fun i => match nth_error (g :: rest) (i - 1), nth_error (g :: rest) i with
                | Some p0, Some g0 =>
                    State_eqb (state2 p0) A && State_eqb (state1 g0) B
                | _, _ => false
                end) l)).
  { induction 1 as [|i l Hi _ IH]; [reflexivity|].
    cbn [map filter]. rewrite Nat.sub_succ, Nat.sub_0_r.
    destruct i as [|i]; [lia|].
    cbn [nth_error]. rewrite Nat.sub_succ, Nat.sub_0_r.
    destruct (nth_error (g :: rest) i) as [p0|];
      [destruct (nth_error rest i) as [g0|]|];
      try (destruct (State_eqb (state2 p0) A && State_eqb (state1 g0) B));
      cbn [length]; now rewrite IH. }
  assert (H1 : Forall (fun i => (1 <= i)%nat) (seq 1 (length rest)))
    by (apply Forall_forall; intros i Hi; apply in_seq in Hi; lia).
  specialize (E _ H1).
  cbn [nth_error Nat.sub].
  destruct (State_eqb (state2 p) A && State_eqb (state1 g) B);
    cbn [length]; rewrite E; lia.
Qed.

Lemma pairCount_nonneg (A B : State) (games : list game) : 0 <= pairCount A B games.
Proof. unfold pairCount; lia. Qed.

Lemma transitionLoop_matrixOf (rest : list game) :
  forall (prev : game) (f : State -> State -> Z),
    state2 prev <> UNKNOWN -> statesKnown rest ->
    transitionLoop (matrixOf f) prev rest
    = Normal (matrixOf (fun A B => f A B + pairCount A B (prev :: rest))).
Proof.
  induction rest as [|g rest IH]; intros prev f Hp Hk.
  - cbn [transitionLoop]; f_equal; apply matrixOf_ext; intros A B.
    rewrite pairCount_single; lia.
  - inversion Hk as [|? ? [Hg1 Hg2] Hk']; subst.
    cbn [transitionLoop]; rewrite increment_matrixOf by assumption.
    cbn [bind]; rewrite IH by assumption.
    f_equal; apply matrixOf_ext; intros A B.
    rewrite pairCount_cons; unfold bump; lia.
Qed.

Lemma buildTransitionMatrix_known (games : list game) :
  (2 <= length games)%nat -> statesKnown games ->
  buildTransitionMatrix games
  = Normal (Some (matrixOf (fun A B => pairCount A B games))).
Proof.
  destruct games as [|g0 [|g1 rest]]; cbn [length]; try lia; intros _ Hk.
  inversion Hk as [|? ? [_ H0] Hk']; subst.
  unfold buildTransitionMatrix; rewrite zeroMatrix_matrixOf.
  rewrite transitionLoop_matrixOf by assumption; reflexivity.
Qed.

(** C3. [buildTransitionMatrix] returns [null] below two rounds; from two
    rounds on, for a log whose states are all among LOW, MID, HIGH and
    EXTREME, it returns the zero-initialized 4x4 matrix in which cell
    [A][B] is the number of indices [i >= 1] of the whole log with
    [games[i-1].state2 = A] and [games[i].state1 = B]. *)
Theorem buildTransitionMatrix_counts (games : list game) :
  zeroMatrix = matrixOf (fun _ _ => 0) /\
  ((length games < 2)%nat -> buildTransitionMatrix games = Normal None) /\
  ((2 <= length games)%nat -> statesKnown games ->
   exists m,
     buildTransitionMatrix games = Normal (Some m) /\
     m = matrixOf (fun A B => pairCount A B games) /\
     forall A B,
       cell m A B
       = if known A && known B then Some (ofZ (pairCount A B games)) else None).
Proof.
  split; [reflexivity|]. split.
  - destruct games as [|g0 [|g1 rest]]; cbn [length]; try lia; reflexivity.
  - intros Hlen Hk; eexists; split; [apply buildTransitionMatrix_known; assumption|].
    split; [reflexivity|]. intros A B; apply cell_matrixOf.
Qed.

Lemma buildTransitionMatrix_counts_witness :
  exists m,
    buildTransitionMatrix logCarryOver = Normal (Some m) /\
    cell m LOW MID = Some (Fin 1) /\
    cell m HIGH HIGH = Some (Fin 1) /\
    cell m LOW LOW = Some (Fin 0).
Proof.
  assert (Hlen : (2 <= length logCarryOver)%nat) by (cbn; lia).
  assert (Hk : statesKnown logCarryOver) by (repeat constructor; discriminate).
  destruct (proj2 (proj2 (buildTransitionMatrix_counts logCarryOver)) Hlen Hk)
    as (m & E & _ & C).
  exists m; split; [exact E|].
  split; [exact (C LOW MID)|]. split; [exact (C HIGH HIGH) | exact (C LOW LOW)].
Defined.

(** ** Objects *)

Lemma get_set_same {V} (o : obj V) (k : State) (v : V) :
  get (set o k v) k = Some v.
Proof.
  induction o as [|[k' v'] o IH]; cbn [set get].
  - now rewrite State_eqb_refl.
  - destruct (State_eqb k k') eqn:E; cbn [get]; rewrite E; auto.
Qed.

Lemma get_set_other {V} (o : obj V) (k k' : State) (v : V) :
  k <> k' -> get (set o k v) k' = get o k'.
Proof.
  intros Hne; induction o as [|[k0 v0] o IH]; cbn [set get].
  - destruct (State_eqb_spec k' k); congruence.
  - destruct (State_eqb_spec k k0) as [->|]; cbn [get].
    + destruct (State_eqb_spec k' k0); congruence.
    + now rewrite IH.
Qed.

Lemma keys_set_present {V} (o : obj V) (k : State) (v : V) :
  get o k <> None -> map fst (set o k v) = map fst o.
Proof.
  induction o as [|[k' v'] o IH]; cbn [set get map fst]; [congruence|].
  destruct (State_eqb k k'); cbn [map fst]; [reflexivity|].
  intros H; now rewrite IH.
Qed.

Lemma get_keys_states {V} (o : obj V) (k : State) :
  map fst o = states -> (get o k = None <-> known k = false).
Proof.
  destruct o as [|[k1 ?] [|[k2 ?] [|[k3 ?] [|[k4 ?] [|? ?]]]]]; try discriminate.
  cbn [map fst states]; intros [= -> -> -> ->].
  destruct k; cbn; split; congruence.
Qed.

(** ** UNKNOWN in the transition components *)

Lemma increment_keys (m m' : matrix) (A B : State) :
  increment m A B = Normal m' -> map fst m' = map fst m.
Proof.
  unfold increment; destruct (get m A) as [row|] eqn:E; [|discriminate].
  intros [= <-]; apply keys_set_present; congruence.
Qed.

Lemma increment_throws (m : matrix) (A B : State) :
  map fst m = states -> (increment m A B = TypeError <-> known A = false).
Proof.
  intros K; rewrite <- (get_keys_states m A K); unfold increment.
  destruct (get m A); split; congruence.
Qed.

Lemma transitionLoop_throws (rest : list game) :
  forall (m : matrix) (prev : game),
    map fst m = states ->
    (transitionLoop m prev rest = TypeError <->
       unknownSource (prev :: rest) = true) /\
    (forall m', transitionLoop m prev rest = Normal m' -> map fst m' = states).
Proof.
  induction rest as [|g rest IH]; intros m prev K.
  - cbn; split; [split; discriminate | now intros m' [= <-]].
  - unfold unknownSource; cbn [transitionLoop removelast existsb].
    change (existsb _ (removelast (g :: rest))) with (unknownSource (g :: rest)).
    pose proof (increment_throws m (state2 prev) (state1 g) K) as T.
    destruct (increment m (state2 prev) (state1 g)) as [m1|] eqn:E; cbn [bind].
    + assert (K1 : map fst m1 = states)
        by (rewrite (increment_keys _ _ _ _ E); exact K).
      destruct (IH m1 g K1) as [IH1 IH2].
      destruct (known (state2 prev)); cbn [negb orb].
      * split; [exact IH1 | exact IH2].
      * destruct T as [_ T]; discriminate (T eq_refl).
    + destruct T as [T _]; rewrite (T eq_refl); cbn [negb orb].
      split; [tauto | discriminate].
Qed.

Lemma buildTransitionMatrix_throws (games : list game) :
  (buildTransitionMatrix games = TypeError <->
     (2 <=? length games)%nat && unknownSource games = true) /\
  (forall m, buildTransitionMatrix games = Normal (Some m) -> map fst m = states).
Proof.
  destruct games as [|g0 [|g1 rest]];
    try (cbn; split; [split; discriminate | discriminate]).
  change ((2 <=? length (g0 :: g1 :: rest))%nat) with true; cbn [andb].
  destruct (transitionLoop_throws (g1 :: rest) zeroMatrix g0 eq_refl) as [T K].
  unfold buildTransitionMatrix.
  destruct (transitionLoop zeroMatrix g0 (g1 :: rest)) as [m1|]; cbn [bind].
  - split; [rewrite <- T; split; discriminate|].
    intros m [= <-]; now apply K.
  - split; [rewrite <- T; tauto | discriminate].
Qed.

Lemma getStateTransitionProbability_UNKNOWN (games : list game) :
  getStateTransitionProbability UNKNOWN games
  = if (2 <=? length games)%nat then TypeError else Normal None.
Proof.
  unfold getStateTransitionProbability.
  destruct (buildTransitionMatrix_throws games) as [_ K].
  destruct games as [|g0 [|g1 rest]]; try reflexivity.
  change ((2 <=? length (g0 :: g1 :: rest))%nat) with true.
  destruct (buildTransitionMatrix (g0 :: g1 :: rest)) as [[m|]|] eqn:E;
    cbn [bind]; try reflexivity.
  - pose proof (proj2 (get_keys_states m UNKNOWN (K m eq_refl)) eq_refl) as G.
    now rewrite G.
  - unfold buildTransitionMatrix in E.
    destruct (transitionLoop zeroMatrix g0 (g1 :: rest)); discriminate E.
Qed.

Lemma cell_increment (m m' : matrix) (A B : State) :
  increment m A B = Normal m' ->
  forall A0 B0,
    cell m' A0 B0
    = if State_eqb A A0 && State_eqb B B0 then Some (incr (cell m A0 B0))
      else cell m A0 B0.
Proof.
  unfold increment; destruct (get m A) as [row|] eqn:E; [|discriminate].
  intros [= <-] A0 B0; unfold cell.
  destruct (State_eqb_spec A A0) as [<-|HA]; cbn [andb].
  - rewrite get_set_same, E.
    destruct (State_eqb_spec B B0) as [<-|HB].
    + now rewrite get_set_same.
    + now rewrite get_set_other.
  - now rewrite get_set_other.
Qed.

Lemma zeroMatrix_unknownColumn : unknownColumnNaN zeroMatrix.
Proof. intros A; left; now destruct A. Qed.

Lemma increment_unknownColumn (m m' : matrix) (A B : State) :
  increment m A B = Normal m' -> unknownColumnNaN m ->
  unknownColumnNaN m' /\
  (forall A0, cell m A0 UNKNOWN = Some NaN -> cell m' A0 UNKNOWN = Some NaN) /\
  (B = UNKNOWN -> cell m' A UNKNOWN = Some NaN).
Proof.
  intros E I; pose proof (cell_increment m m' A B E) as C.
  assert (Hincr : forall A0, incr (cell m A0 UNKNOWN) = NaN)
    by (intros A0; destruct (I A0) as [-> | ->]; reflexivity).
  repeat split.
  - intros A0; rewrite C.
    destruct (State_eqb A A0 && State_eqb B UNKNOWN);
      [right; now rewrite Hincr | apply I].
  - intros A0 H; rewrite C.
    destruct (State_eqb A A0 && State_eqb B UNKNOWN);
      [now rewrite Hincr | exact H].
  - intros ->; rewrite C, !State_eqb_refl; cbn [andb]; now rewrite Hincr.
Qed.

Lemma transitionLoop_unknownColumn (rest : list game) :
  forall (m m' : matrix) (prev : game),
    unknownColumnNaN m -> transitionLoop m prev rest = Normal m' ->
    unknownColumnNaN m' /\
    (forall A0, cell m A0 UNKNOWN = Some NaN -> cell m' A0 UNKNOWN = Some NaN) /\
    (forall i p g,
        nth_error (prev :: rest) i = Some p -> nth_error rest i = Some g ->
        state1 g = UNKNOWN -> cell m' (state2 p) UNKNOWN = Some NaN).
Proof.
  induction rest as [|g rest IH]; intros m m' prev I.
  - cbn [transitionLoop]; intros [= <-]; repeat split; auto.
    intros [|i] p g0 _ Hg; discriminate Hg.
  - cbn [transitionLoop].
    destruct (increment m (state2 prev) (state1 g)) as [m1|] eqn:E;
      cbn [bind]; [|discriminate].
    intros L.
    destruct (increment_unknownColumn _ _ _ _ E I) as (I1 & P1 & N1).
    destruct (IH m1 m' g I1 L) as (I' & P' & N').
    repeat split; auto.
    intros [|i] p g0; cbn [nth_error].
    + intros [= <-] [= <-] Hu; auto.
    + intros Hp Hg Hu; eapply N'; eauto.
Qed.

(** C10, as stated, fails: a log of two rounds in which UNKNOWN is the
    state a round starts from does not make the transition components
    fail.  The increment goes to an absent cell of an existing row, which
    becomes [NaN], and the probabilities of that row are all [NaN]. *)
Lemma unknown_destination_does_not_fail :
  (2 <= length logUnknownDestination)%nat /\
  hasUnknown logUnknownDestination /\
  buildTransitionMatrix logUnknownDestination
  = Normal (Some
      [(LOW, [(LOW, Fin 0); (MID, Fin 0); (HIGH, Fin 0); (EXTREME, Fin 0);
              (UNKNOWN, NaN)]);
       (MID, [(LOW, Fin 0); (MID, Fin 0); (HIGH, Fin 0); (EXTREME, Fin 0)]);
       (HIGH, [(LOW, Fin 0); (MID, Fin 0); (HIGH, Fin 0); (EXTREME, Fin 0)]);
       (EXTREME, [(LOW, Fin 0); (MID, Fin 0); (HIGH, Fin 0); (EXTREME, Fin 0)])]) /\
  getStateTransitionProbability LOW logUnknownDestination
  = Normal (Some [(LOW, NaN); (MID, NaN); (HIGH, NaN); (EXTREME, NaN);
                  (UNKNOWN, NaN)]) /\
  getStateTransitionProbability MID logUnknownDestination = Normal None.
Proof.
  split; [cbn; lia|]. split.
  - exists (newGame 5 10); split; [right; left; reflexivity | left; reflexivity].
  - repeat split; reflexivity.
Qed.

(** C10, amended. On a log of at least two rounds [buildTransitionMatrix]
    fails exactly when a round other than the last ends in UNKNOWN (the
    row is absent); when it returns, the matrix still has the four rows
    LOW, MID, HIGH, EXTREME, and every transition into a round that starts
    in UNKNOWN has left [NaN] in an added UNKNOWN cell of its source row
    instead of failing.  [getStateTransitionProbability] asked for the
    UNKNOWN row fails on every such log. *)
Theorem unknown_in_transitions (games : list game) :
  (2 <= length games)%nat ->
  (buildTransitionMatrix games = TypeError <-> unknownSource games = true) /\
  getStateTransitionProbability UNKNOWN games = TypeError /\
  (forall m,
      buildTransitionMatrix games = Normal (Some m) ->
      map fst m = states /\
      forall i p g,
        nth_error games i = Some p -> nth_error games (S i) = Some g ->
        state1 g = UNKNOWN -> cell m (state2 p) UNKNOWN = Some NaN).
Proof.
  intros Hlen.
  assert (L : (2 <=? length games)%nat = true) by (apply Nat.leb_le; exact Hlen).
  destruct (buildTransitionMatrix_throws games) as [T K].
  rewrite L in T; cbn [andb] in T.
  split; [exact T|]. split.
  - rewrite getStateTransitionProbability_UNKNOWN, L; reflexivity.
  - intros m E; split; [now apply K|].
    destruct games as [|g0 [|g1 rest]]; cbn [length] in Hlen; try lia.
    unfold buildTransitionMatrix in E.
    destruct (transitionLoop zeroMatrix g0 (g1 :: rest)) as [m1|] eqn:E1;
      cbn [bind] in E; [|discriminate].
    injection E as <-.
    destruct (transitionLoop_unknownColumn _ _ _ _ zeroMatrix_unknownColumn E1)
      as (_ & _ & N).
    intros i p g Hp Hg; eapply N; eauto.
Qed.

Lemma unknown_in_transitions_witness :
  buildTransitionMatrix (logOf [(10, 5); (10, 10)]) = TypeError /\
  getStateTransitionProbability UNKNOWN (logOf [(10, 5); (10, 10)]) = TypeError.
Proof.
  assert (H : (2 <= length (logOf [(10, 5); (10, 10)]%Z))%nat) by (cbn; lia).
  destruct (unknown_in_transitions _ H) as (T & P & _).
  split; [apply T; reflexivity | exact P].
Defined.

(** ** Empty log *)

(** C9. On the empty log [getClassificationFrequency] returns the
    zero-filled [{KECIL: 0, BESAR: 0}], [getStateDominance] returns an
    object without any property, which is not the zero-filled four-state
    object, and [getLastState] returns [null]. *)
Theorem empty_log_asymmetry :
  getClassificationFrequency [] = mkFrequency 0 0 /\
  getStateDominance [] = [] /\
  (forall s, get (getStateDominance []) s = None) /\
  getStateDominance [] <> tableOf (fun _ => 0) /\
  getLastState [] = None.
Proof. repeat split; discriminate. Qed.

(** ** Transition probabilities *)

Lemma sum_tableOf (f : State -> Z) :
  sum (values (tableOf f)) = ofZ (f LOW + f MID + f HIGH + f EXTREME).
Proof.
  unfold sum, values, tableOf, states; cbn [map snd fold_left].
  change (Fin 0) with (ofZ 0); now rewrite !add_ofZ.
Qed.

Lemma strict_eq_ofZ_0 (t : Z) : strict_eq (ofZ t) (Fin 0) = (t =? 0).
Proof.
  unfold strict_eq, ofZ, inject_Z, Qeq_bool; cbn [Qnum Qden].
  rewrite Z.mul_1_r; reflexivity.
Qed.

Lemma round_percent (c t : Z) :
  t <> 0 ->
  round (mul (div (ofZ c) (ofZ t)) (Fin 100)) = ofZ (roundedPercent c t).
Proof.
  intros Ht; unfold div, ofZ at 1 2.
  assert (N : ~ inject_Z t == 0)
    by (intros H; apply Ht; unfold Qeq, inject_Z in H; cbn in H; lia).
  assert (E : Qeq_bool (inject_Z t) 0 = false)
    by (apply Bool.not_true_is_false; intros H; apply Qeq_bool_eq in H; tauto).
  rewrite E; cbn [mul round]; unfold roundedPercent; f_equal.
  apply Qfloor_comp; field; exact N.
Qed.

Lemma getStateTransitionProbability_known (games : list game) (fromState : State) :
  (2 <= length games)%nat -> statesKnown games -> fromState <> UNKNOWN ->
  getStateTransitionProbability fromState games
  = if rowTotal fromState games =? 0 then Normal None
    else Normal (Some (tableOf (fun toState =>
           roundedPercent (pairCount fromState toState games)
                          (rowTotal fromState games)))).
Proof.
  intros Hlen Hk Hf; unfold getStateTransitionProbability.
  rewrite buildTransitionMatrix_known by assumption; cbn [bind].
  rewrite get_matrixOf.
  replace (known fromState) with true by (destruct fromState; cbn; congruence).
  rewrite sum_tableOf, strict_eq_ofZ_0; fold (rowTotal fromState games).
  destruct (Z.eqb_spec (rowTotal fromState games) 0) as [|Ht]; [reflexivity|].
  unfold entries, tableOf, states; cbn [map fold_left set State_eqb].
  now rewrite !round_percent by assumption.
Qed.

Lemma rowTotal_nonneg (A : State) (games : list game) : 0 <= rowTotal A games.
Proof.
  unfold rowTotal.
  pose proof (pairCount_nonneg A LOW games); pose proof (pairCount_nonneg A MID games).
  pose proof (pairCount_nonneg A HIGH games);
    pose proof (pairCount_nonneg A EXTREME games); lia.
Qed.

Lemma roundedPercent_div (c t : Z) :
  0 < t -> roundedPercent c t = (200 * c + t) / (2 * t).
Proof.
  intros Ht; destruct t as [|tp|tp]; try lia.
  unfold roundedPercent.
  rewrite (Qfloor_comp _ ((200 * c + Z.pos tp) # (2 * tp))).
  - reflexivity.
  - unfold Qdiv, Qinv, inject_Z; cbn [Qnum Qden].
    unfold Qeq, Qplus, Qmult; cbn [Qnum Qden]; lia.
Qed.

Lemma roundedPercent_nearest (c t : Z) :
  0 < t -> 200 * c - t < 2 * t * roundedPercent c t <= 200 * c + t.
Proof.
  intros Ht; rewrite roundedPercent_div by assumption.
  pose proof (Z.mul_div_le (200 * c + t) (2 * t)).
  pose proof (Z.mul_succ_div_gt (200 * c + t) (2 * t)).
  lia.
Qed.

Lemma roundedPercent_nonneg (c t : Z) : 0 <= c -> 0 < t -> 0 <= roundedPercent c t.
Proof.
  intros Hc Ht; rewrite roundedPercent_div by assumption.
  apply Z.div_pos; lia.
Qed.

Lemma statesKnown_logThirds : statesKnown logThirds.
Proof. repeat constructor; discriminate. Qed.



(** ** Window aggregates *)

Lemma Forall_skipn_keeps {A} (P : A -> Prop) (n : nat) (l : list A) :
  Forall P l -> Forall P (skipn n l).
Proof.
  intros H; rewrite <- (firstn_skipn n l) in H.
  now apply Forall_app in H.
Qed.

Lemma Forall_getRecentGames (P : game -> Prop) (games : list game) :
  Forall P games -> Forall P (getRecentGames maxMemoryWindow games).
Proof. rewrite getRecentGames_skipn; apply Forall_skipn_keeps. Qed.

Lemma analyzeTrendDirection_window (games : list game) :
  analyzeTrendDirection games
  = analyzeTrendDirection (getRecentGames maxMemoryWindow games).
Proof.
  destruct games as [|g l]; [reflexivity|].
  pose proof (getRecentGames_nonempty (g :: l)) as Hne.
  pose proof (getRecentGames_idem (g :: l)) as Hid.
  destruct (getRecentGames maxMemoryWindow (g :: l)) as [|g' l'] eqn:E;
    [now elim Hne|].
  unfold analyzeTrendDirection; now rewrite Hid, E.
Qed.

Lemma getClassificationFrequency_window (games : list game) :
  getClassificationFrequency games
  = getClassificationFrequency (getRecentGames maxMemoryWindow games).
Proof.
  destruct games as [|g l]; [reflexivity|].
  pose proof (getRecentGames_nonempty (g :: l)) as Hne.
  pose proof (getRecentGames_idem (g :: l)) as Hid.
  destruct (getRecentGames maxMemoryWindow (g :: l)) as [|g' l'] eqn:E;
    [now elim Hne|].
  unfold getClassificationFrequency; now rewrite Hid, E.
Qed.

Lemma getStateDominance_window (games : list game) :
  getStateDominance games
  = getStateDominance (getRecentGames maxMemoryWindow games).
Proof.
  destruct games as [|g l]; [reflexivity|].
  pose proof (getRecentGames_nonempty (g :: l)) as Hne.
  pose proof (getRecentGames_idem (g :: l)) as Hid.
  destruct (getRecentGames maxMemoryWindow (g :: l)) as [|g' l'] eqn:E;
    [now elim Hne|].
  unfold getStateDominance; now rewrite Hid, E.
Qed.

Lemma fold_countClass (l : list game) (acc : Frequency) :
  fold_left countClass l acc
  = mkFrequency (freqKECIL acc + countClassification KECIL l)
                (freqBESAR acc + countClassification BESAR l).
Proof.
  revert acc; induction l as [|g l IH]; intros [k b].
  - unfold countClassification; simpl; f_equal; lia.
  - simpl fold_left; rewrite IH; unfold countClass, countClassification.
    cbn [filter]; destruct (classification g);
      cbn [freqKECIL freqBESAR length]; rewrite ?Nat2Z.inj_succ; f_equal; lia.
Qed.

Lemma getClassificationFrequency_counts (games : list game) :
  getClassificationFrequency games
  = mkFrequency
      (countClassification KECIL (getRecentGames maxMemoryWindow games))
      (countClassification BESAR (getRecentGames maxMemoryWindow games)).
Proof.
  destruct games as [|g l]; [reflexivity|].
  unfold getClassificationFrequency; now rewrite fold_countClass.
Qed.

Lemma tableOf_ext (f g : State -> Z) :
  (forall s, f s = g s) -> tableOf f = tableOf g.
Proof. intros H; unfold tableOf; apply map_ext; intros s; now rewrite H. Qed.

Lemma countState2_cons (s : State) (g : game) (l : list game) :
  countState2 s (g :: l)
  = (if State_eqb (state2 g) s then 1 else 0) + countState2 s l.
Proof.
  unfold countState2; cbn [filter].
  destruct (State_eqb (state2 g) s); cbn [length]; lia.
Qed.

Lemma countState2_nonneg (s : State) (l : list game) : 0 <= countState2 s l.
Proof. unfold countState2; lia. Qed.

Lemma fold_stateCounts (l : list game) :
  forall f : State -> Z,
    Forall (fun g => state2 g <> UNKNOWN) l ->
    fold_left
      (fun stateCounts g =>
         set stateCounts (state2 g) (incr (get stateCounts (state2 g))))
      l (tableOf f)
    = tableOf (fun s => f s + countState2 s l).
Proof.
  induction l as [|g l IH]; intros f Hk.
  - cbn [fold_left]; apply tableOf_ext; intros s.
    unfold countState2; cbn; lia.
  - inversion Hk as [|? ? Hg Hl]; subst; cbn [fold_left].
    assert (E : set (tableOf f) (state2 g) (incr (get (tableOf f) (state2 g)))
                = tableOf (fun s => f s + if State_eqb (state2 g) s then 1 else 0)).
    { destruct (state2 g); try congruence;
        cbn [tableOf states map get set State_eqb];
        rewrite incr_ofZ, ?Z.add_0_r; reflexivity. }
    rewrite E, IH by assumption.
    apply tableOf_ext; intros s; rewrite countState2_cons; lia.
Qed.

Lemma getStateDominance_known (games : list game) :
  games <> [] -> Forall (fun g => state2 g <> UNKNOWN) games ->
  getStateDominance games
  = tableOf (fun s => countState2 s (getRecentGames maxMemoryWindow games)).
Proof.
  destruct games as [|g l]; [congruence | intros _ Hk].
  unfold getStateDominance.
  change [(LOW, Fin 0); (MID, Fin 0); (HIGH, Fin 0); (EXTREME, Fin 0)]
    with (tableOf (fun _ => 0)).
  rewrite fold_stateCounts; [reflexivity|].
  now apply Forall_getRecentGames.
Qed.

(** The counting loop of [getStateDominance], started from the four named
    counts [f] and, when [seen] holds, an UNKNOWN property that is [NaN]. *)
Lemma fold_stateCounts_any (l : list game) :
  forall (f : State -> Z) (seen : bool),
    fold_left
      (fun stateCounts g =>
         set stateCounts (state2 g) (incr (get stateCounts (state2 g))))
      l (tableOf f ++ (if seen then [(UNKNOWN, NaN)] else []))
    = tableOf (fun s => f s + countState2 s l)
      ++ (if seen || existsb (fun g => negb (known (state2 g))) l
          then [(UNKNOWN, NaN)] else []).
Proof.
  induction l as [|g l IH]; intros f seen.
  - cbn [fold_left existsb]; rewrite orb_false_r; f_equal.
    apply tableOf_ext; intros s; unfold countState2; cbn; lia.
  - cbn [fold_left existsb].
    assert (E : set (tableOf f ++ (if seen then [(UNKNOWN, NaN)] else []))
                    (state2 g)
                    (incr (get (tableOf f ++ (if seen then [(UNKNOWN, NaN)] else []))
                               (state2 g)))
                = tableOf (fun s => f s + if State_eqb (state2 g) s then 1 else 0)
                  ++ (if seen || negb (known (state2 g))
                      then [(UNKNOWN, NaN)] else [])).
    { destruct (state2 g), seen;
        cbn [tableOf states map app get set State_eqb known negb orb];
        rewrite ?incr_ofZ, ?Z.add_0_r; reflexivity. }
    rewrite E, IH, orb_assoc; f_equal.
    apply tableOf_ext; intros s; rewrite countState2_cons; lia.
Qed.

Lemma getStateDominance_any (games : list game) :
  games <> [] ->
  getStateDominance games
  = tableOf (fun s => countState2 s (getRecentGames maxMemoryWindow games))
    ++ (if unknownInWindow games then [(UNKNOWN, NaN)] else []).
Proof.
  destruct games as [|g l]; [congruence | intros _].
  unfold getStateDominance, unknownInWindow.
  change [(LOW, Fin 0); (MID, Fin 0); (HIGH, Fin 0); (EXTREME, Fin 0)]
    with (tableOf (fun _ => 0) ++ (if false then [(UNKNOWN, NaN)] else [])).
  now rewrite fold_stateCounts_any.
Qed.

Lemma getRecentGames_app (older recent : list game) :
  length recent = 20%nat ->
  getRecentGames maxMemoryWindow (older ++ recent) = recent.
Proof.
  intros H; rewrite getRecentGames_skipn, length_app, H.
  replace (length older + 20 - 20)%nat with (length older) by lia.
  rewrite skipn_app, skipn_all, Nat.sub_diag; reflexivity.
Qed.

(** ** Average of the second rolls *)

Lemma fold_roll2 (rolls : list (Z * Z)) (a : Z) :
  fold_left (fun sum g => add sum (roll2 g)) (logOf rolls) (ofZ a)
  = ofZ (a + sumRoll2 rolls).
Proof.
  revert a; induction rolls as [|[r1 r2] rolls IH]; intros a;
    cbn [logOf map fold_left sumRoll2 fold_right newGame roll2 snd].
  - now rewrite Z.add_0_r.
  - fold (logOf rolls); fold (sumRoll2 rolls).
    rewrite add_ofZ, IH; f_equal; lia.
Qed.

Lemma averageRoll2_sum (rolls : list (Z * Z)) :
  averageRoll2 (logOf rolls)
  = div (ofZ (sumRoll2 rolls)) (ofZ (Z.of_nat (length rolls))).
Proof.
  unfold averageRoll2; change (Fin 0) with (ofZ 0); rewrite fold_roll2.
  unfold logOf; now rewrite length_map.
Qed.

(** C5. The window is the last [min(20, length)] rounds in their original
    order.  The trend aggregate, the classification frequency and the
    state dominance are the counts taken over the rounds of the window,
    each round once, and rounds older than the 20 newest change none of
    them; the average of [roll2] divides the sum over the whole log by its
    length.  With 21 rounds the aggregates are those of the 20 newest
    rounds, whereas the oldest round's [roll2] is in the average and its
    transition into the next round is counted in the matrix. *)
Theorem window_and_whole_log :
  (forall games : list game,
      firstn (length games - 20) games ++ getRecentGames maxMemoryWindow games
      = games /\
      length (getRecentGames maxMemoryWindow games) = Nat.min 20 (length games) /\
      getClassificationFrequency games
      = mkFrequency
          (countClassification KECIL (getRecentGames maxMemoryWindow games))
          (countClassification BESAR (getRecentGames maxMemoryWindow games)) /\
      (games <> [] ->
       analyzeTrendDirection games
       = Some (mkTrendAnalysis
                 (countDirection naik (getRecentGames maxMemoryWindow games))
                 (countDirection turun (getRecentGames maxMemoryWindow games))
                 (countDirection stabil (getRecentGames maxMemoryWindow games))) /\
       getStateDominance games
       = tableOf (fun s => countState2 s (getRecentGames maxMemoryWindow games))
         ++ (if unknownInWindow games then [(UNKNOWN, NaN)] else []))) /\
  (forall older recent : list game,
      length recent = 20%nat ->
      getRecentGames maxMemoryWindow (older ++ recent) = recent /\
      analyzeTrendDirection (older ++ recent) = analyzeTrendDirection recent /\
      getClassificationFrequency (older ++ recent)
      = getClassificationFrequency recent /\
      getStateDominance (older ++ recent) = getStateDominance recent) /\
  (forall rolls : list (Z * Z),
      averageRoll2 (logOf rolls)
      = div (ofZ (sumRoll2 rolls)) (ofZ (Z.of_nat (length rolls)))) /\
  (forall (oldest : game) (rest : list game),
      length rest = 20%nat ->
      getRecentGames maxMemoryWindow (oldest :: rest) = rest /\
      analyzeTrendDirection (oldest :: rest) = analyzeTrendDirection rest /\
      getClassificationFrequency (oldest :: rest)
      = getClassificationFrequency rest /\
      getStateDominance (oldest :: rest) = getStateDominance rest /\
      (statesKnown (oldest :: rest) ->
       exists next,
         hd_error rest = Some next /\
         buildTransitionMatrix (oldest :: rest)
         = Normal (Some (matrixOf (fun A B => pairCount A B (oldest :: rest)))) /\
         pairCount (state2 oldest) (state1 next) (oldest :: rest)
         = 1 + pairCount (state2 oldest) (state1 next) rest)) /\
  (forall (roll1 roll2 : Z) (rolls : list (Z * Z)),
      length rolls = 20%nat ->
      getRecentGames maxMemoryWindow (logOf ((roll1, roll2) :: rolls))
      = logOf rolls /\
      averageRoll2 (logOf ((roll1, roll2) :: rolls))
      = div (ofZ (roll2 + sumRoll2 rolls)) (ofZ 21)).
Proof.
  assert (W : forall older recent : list game,
             length recent = 20%nat ->
             getRecentGames maxMemoryWindow (older ++ recent) = recent /\
             analyzeTrendDirection (older ++ recent)
             = analyzeTrendDirection recent /\
             getClassificationFrequency (older ++ recent)
             = getClassificationFrequency recent /\
             getStateDominance (older ++ recent) = getStateDominance recent).
  { intros older recent Hlen.
    pose proof (getRecentGames_app older recent Hlen) as E.
    assert (S : getRecentGames maxMemoryWindow recent = recent)
      by (apply getRecentGames_short; lia).
    split; [exact E|].
    split; [now rewrite analyzeTrendDirection_window, E,
              (analyzeTrendDirection_window recent), S|].
    split; [now rewrite getClassificationFrequency_window, E,
              (getClassificationFrequency_window recent), S|].
    now rewrite getStateDominance_window, E, (getStateDominance_window recent), S. }
  split; [|split; [exact W|split; [exact averageRoll2_sum|split]]].
  - intros games.
    split; [apply getRecentGames_suffix|].
    split; [apply getRecentGames_length|].
    split; [apply getClassificationFrequency_counts|].
    intros Hne; split;
      [now apply analyzeTrendDirection_counts | now apply getStateDominance_any].
  - intros oldest rest Hlen.
    destruct (W [oldest] rest Hlen) as (E & T & F & D); cbn [app] in E, T, F, D.
    split; [exact E|]. split; [exact T|]. split; [exact F|]. split; [exact D|].
    intros Hk; destruct rest as [|next rest']; [discriminate Hlen|].
    exists next; split; [reflexivity|]. split.
    + apply buildTransitionMatrix_known; [cbn [length]; lia | exact Hk].
    + rewrite pairCount_cons, !State_eqb_refl; reflexivity.
  - intros roll1 roll2 rolls Hlen.
    assert (Hl : length (logOf rolls) = 20%nat)
      by (unfold logOf; now rewrite length_map).
    split.
    + exact (proj1 (W [newGame roll1 roll2] (logOf rolls) Hl)).
    + rewrite averageRoll2_sum; cbn [length sumRoll2 fold_right snd].
      now rewrite Hlen.
Qed.

Lemma window_and_whole_log_witness :
  getStateDominance (roundOldest :: logTwenty) = getStateDominance logTwenty /\
  getStateDominance logTwenty
  = [(LOW, Fin 0); (MID, Fin 20); (HIGH, Fin 0); (EXTREME, Fin 0)] /\
  averageRoll2 (roundOldest :: logTwenty)
  = div (ofZ (50 + sumRoll2 (repeat (10, 20) 20))) (ofZ 21).
Proof.
  assert (Hlen : length logTwenty = 20%nat) by reflexivity.
  assert (Hrolls : length (repeat (10, 20) 20) = 20%nat) by reflexivity.
  assert (Hne : logTwenty <> []) by discriminate.
  destruct window_and_whole_log as (P & _ & _ & Q & R).
  split; [exact (proj1 (proj2 (proj2 (proj2 (Q roundOldest logTwenty Hlen)))))|].
  split.
  - rewrite (proj2 (proj2 (proj2 (proj2 (P logTwenty))) Hne)); reflexivity.
  - exact (proj2 (R 40 50 (repeat (10, 20) 20) Hrolls)).
Defined.

(** ** Signs of the numbers in the scoring block *)

Lemma positive_nonneg (n : num) : strictlyPositive n -> nonneg n.
Proof. destruct n; cbn; auto using Qlt_le_weak. Qed.

Lemma add_nonneg (a b : num) : nonneg a -> nonneg b -> nonneg (add a b).
Proof. destruct a, b; cbn; try tauto; intros; lra. Qed.

Lemma add_positive_l (a b : num) :
  strictlyPositive a -> nonneg b -> strictlyPositive (add a b).
Proof. destruct a, b; cbn; try tauto; intros; lra. Qed.

Lemma add_positive_r (a b : num) :
  nonneg a -> strictlyPositive b -> strictlyPositive (add a b).
Proof. destruct a, b; cbn; try tauto; intros; lra. Qed.

Lemma mul_nonneg (a b : num) : nonneg a -> nonneg b -> nonneg (mul a b).
Proof. destruct a, b; cbn; try tauto; intros; now apply Qmult_le_0_compat. Qed.

Lemma Qeq_bool_pos (q : Q) : (0 < q)%Q -> Qeq_bool q 0 = false.
Proof.
  intros H; apply Bool.not_true_is_false; intros E; apply Qeq_bool_eq in E; lra.
Qed.

Lemma div_nonneg (a b : num) : nonneg a -> strictlyPositive b -> nonneg (div a b).
Proof.
  destruct a as [x| |], b as [y| |]; cbn; try tauto; intros Hx Hy.
  rewrite (Qeq_bool_pos y Hy); cbn.
  apply Qle_shift_div_l; [exact Hy | lra].
Qed.

Lemma or0_nonneg (a : num) : nonneg a -> nonneg (or0 a).
Proof. unfold or0; destruct (truthy a); cbn; auto; intros; lra. Qed.

Lemma nonneg_ofZ (z : Z) : 0 <= z -> nonneg (ofZ z).
Proof. intros H; cbn; unfold Qle; cbn; lia. Qed.

Lemma positive_ofZ (z : Z) : 0 < z -> strictlyPositive (ofZ z).
Proof. intros H; cbn; unfold Qlt; cbn; lia. Qed.

Lemma nonneg_zero : nonneg (Fin 0).
Proof. cbn; lra. Qed.

Lemma positive_trend : strictlyPositive (mul (Fin 0.25) (Fin 0.6)).
Proof. cbn; lra. Qed.

Lemma atLeast_trend : atLeast (3 # 20) (mul (Fin 0.25) (Fin 0.6)).
Proof. cbn; lra. Qed.

Lemma add_atLeast_l (c : Q) (a b : num) :
  atLeast c a -> nonneg b -> atLeast c (add a b).
Proof. destruct a, b; cbn; try tauto; intros; lra. Qed.

Lemma add_atLeast_r (c : Q) (a b : num) :
  nonneg a -> atLeast c b -> atLeast c (add a b).
Proof. destruct a, b; cbn; try tauto; intros; lra. Qed.

(** The distance component is not negative for an average in [6,54]. *)
Lemma center_nonneg (q : Q) :
  (6 <= q <= 54)%Q ->
  nonneg (mul (Fin 0.20)
            (sub (Fin 1) (div (abs (sub (Fin q) (Fin 30))) (Fin 24)))).
Proof.
  intros [Hlo Hhi]; unfold sub; cbn [neg add abs div].
  change (Qeq_bool 24 0) with false; cbn [mul nonneg].
  match goal with |- context [Qabs ?t] => set (x := Qabs t) end.
  assert (A : (x <= 24)%Q) by (apply Qabs_Qle_condition; split; lra).
  assert (B : (0 <= x)%Q) by apply Qabs_nonneg.
  clearbody x.
  assert (C : (x / 24 <= 1)%Q) by (apply Qle_shift_div_r; lra).
  apply Qmult_le_0_compat; lra.
Qed.

Create HintDb jsnum.
#[local] Hint Resolve positive_nonneg add_nonneg add_positive_l add_positive_r
  mul_nonneg div_nonneg or0_nonneg nonneg_ofZ positive_ofZ center_nonneg
  nonneg_zero positive_trend atLeast_trend add_atLeast_l add_atLeast_r : jsnum.

Lemma round_bounds (k b : Q) :
  (0 <= k)%Q -> (0 <= b)%Q -> (0 < k + b)%Q ->
  0 <= Qfloor (k / (k + b) * 100 + (1 # 2)) <= 100.
Proof.
  intros Hk Hb Ht.
  assert (L : (0 <= k / (k + b))%Q) by (apply Qle_shift_div_l; lra).
  assert (U : (k / (k + b) <= 1)%Q) by (apply Qle_shift_div_r; lra).
  split.
  - apply Z.le_trans with (Qfloor 0); [discriminate|].
    apply Qfloor_resp_le; lra.
  - apply Z.le_trans with (Qfloor (201 # 2)); [|discriminate].
    apply Qfloor_resp_le; lra.
Qed.

Lemma sub_100_ofZ (z : Z) : sub (Fin 100) (ofZ z) = ofZ (100 - z).
Proof.
  unfold sub, neg, add, ofZ, inject_Z, Qplus, Qopp; cbn [Qnum Qden].
  do 2 f_equal; lia.
Qed.

Lemma percent_sum (z : Z) :
  strict_eq (add (ofZ z) (ofZ (100 - z))) (Fin 100) = true.
Proof. rewrite add_ofZ; replace (z + (100 - z)) with 100 by lia; reflexivity. Qed.

Lemma average_bounds (s n : Z) :
  0 < n -> 6 * n <= s <= 54 * n ->
  exists q, div (ofZ s) (ofZ n) = Fin q /\ (6 <= q <= 54)%Q.
Proof.
  intros Hn [Hlo Hhi]; unfold div, ofZ.
  assert (P : (0 < inject_Z n)%Q) by (unfold Qlt; cbn; lia).
  rewrite (Qeq_bool_pos _ P); eexists; split; [reflexivity|].
  split.
  - apply Qle_shift_div_l; [exact P|].
    change 6%Q with (inject_Z 6); rewrite <- inject_Z_mult, <- Zle_Qle; lia.
  - apply Qle_shift_div_r; [exact P|].
    change 54%Q with (inject_Z 54); rewrite <- inject_Z_mult, <- Zle_Qle; lia.
Qed.

(** With a four-state dominance table that is not empty, transition
    percentages that are not negative and an average in [6,54], neither
    score is negative and their sum is at least the trend term
    [0.25 * 0.6 = 3/20]. *)
Lemma hybridScoring_signs (t : TrendAnalysis) (f : State -> Z)
    (tp : option (obj num)) (q : Q) :
  (forall s, 0 <= f s) -> 0 < f LOW + f MID + f HIGH + f EXTREME ->
  (tp = None \/ exists p, tp = Some (tableOf p) /\ forall s, 0 <= p s) ->
  (6 <= q <= 54)%Q ->
  nonneg (fst (hybridScoring t (tableOf f) tp (Fin q))) /\
  nonneg (snd (hybridScoring t (tableOf f) tp (Fin q))) /\
  atLeast (3 # 20) (add (fst (hybridScoring t (tableOf f) tp (Fin q)))
                        (snd (hybridScoring t (tableOf f) tp (Fin q)))).
Proof.
  intros Hf Hsum Htp Hq.
  pose proof (center_nonneg q Hq) as Hc.
  assert (H03 : nonneg (Fin 0.30)) by (cbn; lra).
  assert (H025 : nonneg (Fin 0.25)) by (cbn; lra).
  assert (H100 : strictlyPositive (Fin 100)) by (cbn; lra).
  assert (Htot : strictlyPositive (sum (values (tableOf f))))
    by (rewrite sum_tableOf; auto with jsnum).
  unfold hybridScoring.
  rewrite !get_tableOf; cbn [known toNumber].
  set (total := sum (values (tableOf f))) in *.
  set (center := mul (Fin 0.20) _) in *.
  assert (HLM : nonneg (or0 (div (add (ofZ (f LOW)) (ofZ (f MID))) total)))
    by auto with jsnum.
  assert (HHE : nonneg (or0 (div (add (ofZ (f HIGH)) (ofZ (f EXTREME))) total)))
    by auto with jsnum.
  destruct Htp as [-> | (p & -> & Hp)].
  - destruct (downCount t >? upCount t), (lt (Fin q) (Fin 30)); cbn [fst snd];
      repeat split; auto 8 with jsnum.
  - rewrite !get_tableOf; cbn [known toNumber].
    assert (HtLM : nonneg (or0 (div (add (or0 (ofZ (p LOW))) (or0 (ofZ (p MID))))
                                    (Fin 100)))) by auto 8 with jsnum.
    assert (HtHE : nonneg (or0 (div (add (or0 (ofZ (p HIGH))) (or0 (ofZ (p EXTREME))))
                                    (Fin 100)))) by auto 8 with jsnum.
    destruct (downCount t >? upCount t), (lt (Fin q) (Fin 30)); cbn [fst snd];
      repeat split; auto 10 with jsnum.
Qed.

(** ** Well-formed logs *)

Lemma getState_known (r : Z) : 6 <= r <= 54 -> getState r <> UNKNOWN.
Proof. intros H; classify r; try discriminate; lia. Qed.

Lemma wellFormed_newGame (r1 r2 : Z) :
  6 <= r1 <= 54 -> 6 <= r2 <= 54 -> wellFormed (newGame r1 r2).
Proof. intros H1 H2; exists r1, r2; auto. Qed.

Lemma wellFormed_known (g : game) : wellFormed g -> knownStates g.
Proof.
  intros (r1 & r2 & H1 & H2 & E); rewrite E; cbn [newGame state1 state2].
  split; now apply getState_known.
Qed.

(** On integers the range check is the one of [Z]. *)
Lemma handleFormSubmit_ofZ (r1 r2 : Z) (games : list game) :
  handleFormSubmit r1 r2 games
  = if (r1 <? 6) || (r1 >? 54) || (r2 <? 6) || (r2 >? 54)
    then games
    else games ++ [newGame r1 r2].
Proof. unfold handleFormSubmit; now rewrite !lt_ofZ, !gt_ofZ. Qed.

(** Every log grown from the empty one by [handleFormSubmit] on integers
    is valid. *)
Lemma handleFormSubmit_valid (r1 r2 : Z) (games : list game) :
  validLog games -> validLog (handleFormSubmit r1 r2 games).
Proof.
  intros Hv; rewrite handleFormSubmit_ofZ.
  destruct (Z.ltb_spec r1 6); [exact Hv|].
  destruct (Z.gtb_spec r1 54); [exact Hv|].
  destruct (Z.ltb_spec r2 6); [exact Hv|].
  destruct (Z.gtb_spec r2 54); [exact Hv|].
  cbn [orb]; apply Forall_app; split; [exact Hv|].
  repeat constructor; apply wellFormed_newGame; lia.
Qed.

Lemma validLog_snoc (games : list game) (r1 r2 : Z) :
  6 <= r1 <= 54 -> 6 <= r2 <= 54 ->
  handleFormSubmit r1 r2 games = games ++ [newGame r1 r2].
Proof.
  intros H1 H2; rewrite handleFormSubmit_ofZ.
  destruct (Z.ltb_spec r1 6); [lia|].
  destruct (Z.gtb_spec r1 54); [lia|].
  destruct (Z.ltb_spec r2 6); [lia|].
  destruct (Z.gtb_spec r2 54); [lia|].
  reflexivity.
Qed.

(** The valid logs are exactly the logs the form handler can produce from
    integers. *)
Lemma reachable_validLog (games : list game) : reachable games <-> validLog games.
Proof.
  split.
  - induction 1; [constructor | now apply handleFormSubmit_valid].
  - induction games as [|g games IH] using rev_ind; [constructor|].
    intros Hv; apply Forall_app in Hv; destruct Hv as [Hv Hg].
    inversion Hg as [|? ? (r1 & r2 & H1 & H2 & ->) _]; subst.
    rewrite <- (validLog_snoc games r1 r2 H1 H2); constructor; auto.
Qed.

Lemma validLog_statesKnown (games : list game) : validLog games -> statesKnown games.
Proof. apply Forall_impl, wellFormed_known. Qed.

Lemma statesKnown_state2 (games : list game) :
  statesKnown games -> Forall (fun g => state2 g <> UNKNOWN) games.
Proof. apply Forall_impl; now intros g [_ H]. Qed.

Lemma sumRoll2_bounds (rolls : list (Z * Z)) :
  secondRollOutside rolls = false ->
  6 * Z.of_nat (length rolls) <= sumRoll2 rolls <= 54 * Z.of_nat (length rolls).
Proof.
  unfold secondRollOutside; induction rolls as [|[r1 r2] rolls IH];
    cbn [existsb sumRoll2 fold_right length snd]; [lia|].
  intros H; apply orb_false_iff in H; destruct H as [Hr Hl].
  fold (sumRoll2 rolls).
  specialize (IH Hl); unfold inRange in Hr.
  rewrite Nat2Z.inj_succ.
  destruct (Z.leb_spec 6 r2), (Z.leb_spec r2 54); cbn in Hr;
    try discriminate; lia.
Qed.

(** A valid log is the log of a list of pairs of integers of [6,54]. *)
Lemma validLog_logOf (games : list game) :
  validLog games ->
  exists rolls, games = logOf rolls /\ secondRollOutside rolls = false.
Proof.
  induction 1 as [|g l (r1 & r2 & H1 & H2 & ->) _ (rolls & -> & Hin)].
  - exists []; split; reflexivity.
  - exists ((r1, r2) :: rolls); split; [reflexivity|].
    unfold secondRollOutside in *; cbn [existsb snd]; rewrite Hin.
    unfold inRange.
    destruct (Z.leb_spec 6 r2), (Z.leb_spec r2 54); cbn; try reflexivity; lia.
Qed.

Lemma validLog_accepted (rolls : list (Z * Z)) :
  forallb accepted rolls = true -> validLog (logOf rolls).
Proof.
  induction rolls as [|[r1 r2] rolls IH]; cbn [forallb logOf map];
    [constructor|].
  intros H; apply andb_true_iff in H; destruct H as [Ha Hl].
  constructor; [|now apply IH].
  unfold accepted, inRange in Ha; cbn [fst snd] in Ha.
  apply wellFormed_newGame; lia.
Qed.

Lemma logOf_average (rolls : list (Z * Z)) :
  rolls <> [] -> secondRollOutside rolls = false ->
  exists q, averageRoll2 (logOf rolls) = Fin q /\ (6 <= q <= 54)%Q.
Proof.
  intros Hne Hin; rewrite averageRoll2_sum.
  apply average_bounds; [|now apply sumRoll2_bounds].
  destruct rolls; [congruence | cbn [length]; lia].
Qed.

Lemma validLog_average (games : list game) :
  validLog games -> games <> [] ->
  exists q, averageRoll2 games = Fin q /\ (6 <= q <= 54)%Q.
Proof.
  intros Hv Hne; destruct (validLog_logOf games Hv) as (rolls & -> & Hin).
  apply logOf_average; [|exact Hin].
  intros ->; now apply Hne.
Qed.

Lemma countState2_total (l : list game) :
  Forall (fun g => state2 g <> UNKNOWN) l ->
  countState2 LOW l + countState2 MID l + countState2 HIGH l
  + countState2 EXTREME l = Z.of_nat (length l).
Proof.
  induction 1 as [|g l Hg _ IH]; [reflexivity|].
  rewrite !countState2_cons; cbn [length]; rewrite Nat2Z.inj_succ.
  destruct (state2 g); try congruence; cbn [State_eqb]; lia.
Qed.

Lemma getLastState_In (games : list game) :
  games <> [] -> exists g, In g games /\ getLastState games = Some (state2 g).
Proof.
  destruct games as [|g0 l]; [congruence | intros _].
  unfold getLastState.
  destruct (nth_error (g0 :: l) (length (g0 :: l) - 1)) as [g|] eqn:E.
  - exists g; split; [eapply nth_error_In; eauto | reflexivity].
  - apply nth_error_None in E; cbn [length] in E; lia.
Qed.

Lemma predictionInputs_valid (games : list game) :
  validLog games -> (2 <= length games)%nat ->
  exists t f s tp q,
    predictionInputs games = Normal (t, tableOf f, s, tp, Fin q) /\
    (forall x, 0 <= f x) /\
    0 < f LOW + f MID + f HIGH + f EXTREME /\
    (tp = None \/ exists p, tp = Some (tableOf p) /\ forall x, 0 <= p x) /\
    (6 <= q <= 54)%Q.
Proof.
  intros Hv Hlen.
  assert (Hne : games <> []) by (intros ->; cbn in Hlen; lia).
  pose proof (validLog_statesKnown _ Hv) as Hk.
  pose proof (statesKnown_state2 _ Hk) as Hk2.
  destruct (getLastState_In games Hne) as (g & Hin & Hlast).
  assert (Hs : state2 g <> UNKNOWN)
    by (exact (proj1 (Forall_forall _ _) Hk2 g Hin)).
  destruct (validLog_average games Hv Hne) as (q & Hq & Hqb).
  unfold predictionInputs.
  rewrite analyzeTrendDirection_counts, Hlast by assumption.
  rewrite getStateTransitionProbability_known by assumption.
  rewrite getStateDominance_known by assumption.
  rewrite Hq.
  set (window := getRecentGames maxMemoryWindow games).
  assert (Hw : 0 < Z.of_nat (length window)).
  { unfold window; rewrite getRecentGames_length; lia. }
  assert (Hf : 0 < countState2 LOW window + countState2 MID window
                   + countState2 HIGH window + countState2 EXTREME window).
  { rewrite countState2_total; [exact Hw|].
    now apply Forall_getRecentGames. }
  destruct (Z.eqb_spec (rowTotal (state2 g) games) 0) as [E|E]; cbn [bind].
  - do 5 eexists; split; [reflexivity|].
    split; [intros x; apply countState2_nonneg|].
    split; [exact Hf|]. split; [now left | exact Hqb].
  - do 5 eexists; split; [reflexivity|].
    split; [intros x; apply countState2_nonneg|].
    split; [exact Hf|]. split; [|exact Hqb].
    right; eexists; split; [reflexivity|].
    intros x; apply roundedPercent_nonneg; [apply pairCount_nonneg|].
    pose proof (rowTotal_nonneg (state2 g) games); lia.
Qed.

Lemma validLog_logFive : validLog logFive.
Proof. now apply validLog_accepted. Qed.

(** ** Prediction *)

(** C2. For a log of at least five rounds whose rolls all lie in [6,54],
    the scoring block ends with two finite scores, neither negative, whose
    sum, the divisor of the normalization, is strictly positive: the
    division is never by zero. *)
Theorem totalScore_positive (games : list game) :
  validLog games -> (5 <= length games)%nat ->
  exists kecilScore besarScore : Q,
    scores games = Normal (Fin kecilScore, Fin besarScore) /\
    (0 <= kecilScore)%Q /\ (0 <= besarScore)%Q /\
    (3 # 20 <= kecilScore + besarScore)%Q /\
    (0 < kecilScore + besarScore)%Q /\
    add (Fin kecilScore) (Fin besarScore) = Fin (kecilScore + besarScore) /\
    strict_eq (add (Fin kecilScore) (Fin besarScore)) (Fin 0) = false.
Proof.
  intros Hv Hlen.
  destruct (predictionInputs_valid games Hv) as (t & f & s & tp & q & E & H);
    [lia|].
  destruct H as (Hf & Hsum & Htp & Hq).
  destruct (hybridScoring_signs t f tp q Hf Hsum Htp Hq) as (Hk & Hb & Ht).
  unfold scores; rewrite E; cbn [bind].
  destruct (hybridScoring t (tableOf f) tp (Fin q)) as [[k| |] [b| |]];
    cbn [fst snd nonneg] in Hk, Hb; try contradiction.
  cbn [fst snd add atLeast] in Ht.
  assert (Hpos : (0 < k + b)%Q) by lra.
  exists k, b; repeat split; try assumption.
  cbn [add strict_eq]; now apply Qeq_bool_pos.
Qed.

Lemma totalScore_positive_witness :
  exists kecilScore besarScore : Q,
    scores logFive = Normal (Fin kecilScore, Fin besarScore) /\
    (0 < kecilScore + besarScore)%Q.
Proof.
  assert (Hlen : (5 <= length logFive)%nat) by (cbn; lia).
  destruct (totalScore_positive logFive validLog_logFive Hlen)
    as (k & b & E & _ & _ & _ & P & _).
  exists k, b; split; [exact E | exact P].
Defined.

(** C1. [predictNextOutcome] answers [canPredict: false] on every log of
    fewer than five rounds; on a log of at least five rounds, each stored
    by [handleFormSubmit] from integers of [6,54], it answers
    [canPredict: true] with KECIL an integer percentage between 0 and 100
    and BESAR equal to 100 minus that integer, so that the two sum to
    exactly 100.  Which integer the share of [kecilScore] rounds to is not
    part of the statement. *)
Theorem predictNextOutcome_split (games : list game) :
  ((length games < 5)%nat ->
   predictNextOutcome games
   = Normal (CannotPredict "Data belum cukup (minimal 5 game)")) /\
  ((5 <= length games)%nat -> validLog games ->
   exists (kecilPercent : Z) (reasoning : Reasoning),
     predictNextOutcome games
     = Normal (Predicted (ofZ kecilPercent) (ofZ (100 - kecilPercent)) reasoning) /\
     0 <= kecilPercent <= 100 /\
     add (ofZ kecilPercent) (ofZ (100 - kecilPercent)) = Fin 100 /\
     strict_eq (add (ofZ kecilPercent) (ofZ (100 - kecilPercent))) (Fin 100)
     = true).
Proof.
  split.
  - intros Hlen; unfold predictNextOutcome.
    now replace (length games <? 5)%nat with true by (symmetry; now apply Nat.ltb_lt).
  - intros Hlen Hv.
    destruct (predictionInputs_valid games Hv) as (t & f & s & tp & q & E & H);
      [lia|].
    destruct H as (Hf & Hsum & Htp & Hq).
    destruct (hybridScoring_signs t f tp q Hf Hsum Htp Hq) as (Hk & Hb & Ht).
    unfold predictNextOutcome.
    replace (length games <? 5)%nat with false
      by (symmetry; apply Nat.ltb_ge; exact Hlen).
    rewrite E; cbn [bind].
    destruct (hybridScoring t (tableOf f) tp (Fin q)) as [[k| |] [b| |]];
      cbn [fst snd nonneg] in Hk, Hb; try contradiction.
    cbn [fst snd add atLeast] in Ht.
    assert (Hpos : (0 < k + b)%Q) by lra.
    cbn [add div]; rewrite (Qeq_bool_pos _ Hpos); cbn [mul round].
    rewrite sub_100_ofZ.
    do 2 eexists.
    split; [reflexivity|]. split; [now apply round_bounds|].
    split; [|apply percent_sum].
    match goal with
    | |- add (ofZ ?z) _ = _ =>
        rewrite add_ofZ; replace (z + (100 - z)) with 100 by lia
    end; reflexivity.
Qed.

Lemma predictNextOutcome_split_witness :
  exists kecilPercent reasoning,
    predictNextOutcome logFive
    = Normal (Predicted (ofZ kecilPercent) (ofZ (100 - kecilPercent)) reasoning) /\
    0 <= kecilPercent <= 100.
Proof.
  assert (Hlen : (5 <= length logFive)%nat) by (cbn; lia).
  destruct (proj2 (predictNextOutcome_split logFive) Hlen validLog_logFive)
    as (z & r & E & B & _).
  exists z, r; split; [exact E | exact B].
Defined.

(** * Further properties of the engine *)

(** ** Form submissions and clears *)

(** The range check, roll by roll: the two comparisons of a roll are both
    false exactly on the rolls [passesCheck] lets through. *)
Lemma check_roll (roll : num) :
  lt roll 6 || gt roll 54 = negb (passesCheck roll).
Proof.
  destruct roll as [q| |[|]]; try reflexivity.
  unfold gt; cbn [passesCheck].
  change (ofZ 6) with (Fin 6); change (ofZ 54) with (Fin 54).
  destruct (lt (Fin q) (Fin 6)) eqn:A, (lt (Fin 54) (Fin q)) eqn:B,
    (Qle_bool 6 q) eqn:C, (Qle_bool q 54) eqn:D; try reflexivity; exfalso;
    repeat match goal with
      | H : lt _ _ = true |- _ => apply lt_Fin in H
      | H : lt _ _ = false |- _ => apply lt_Fin_false in H
      | H : Qle_bool _ _ = true |- _ => apply Qle_bool_iff in H
      | H : Qle_bool _ _ = false |- _ => apply Qle_bool_false in H
      end; lra.
Qed.

Lemma handleFormSubmit_passes (roll1 roll2 : num) (games : list game) :
  handleFormSubmit roll1 roll2 games
  = if passes (roll1, roll2) then games ++ [newGame roll1 roll2] else games.
Proof.
  unfold handleFormSubmit, passes; cbn [fst snd].
  rewrite check_roll, <- orb_assoc, check_roll.
  now destruct (passesCheck roll1), (passesCheck roll2).
Qed.

Lemma passesCheck_ofZ (r : Z) : passesCheck r = inRange r.
Proof.
  unfold passesCheck, inRange, ofZ, inject_Z, Qle_bool; cbn [Qnum Qden].
  now rewrite !Z.mul_1_r.
Qed.

Lemma passes_ofZ (r1 r2 : Z) : passes (ofZ r1, ofZ r2) = accepted (r1, r2).
Proof. unfold passes, accepted; cbn [fst snd]; now rewrite !passesCheck_ofZ. Qed.

Lemma handleFormSubmit_accepted (r1 r2 : Z) (games : list game) :
  handleFormSubmit r1 r2 games
  = if accepted (r1, r2) then games ++ [newGame r1 r2] else games.
Proof. now rewrite handleFormSubmit_passes, passes_ofZ. Qed.


(** On a valid log of five rounds or more the prediction is a split
    [z / 100 - z] with [z] the rounded share of [kecilScore]. *)
Lemma predictNextOutcome_valid (games : list game) :
  validLog games -> (5 <= length games)%nat ->
  exists t f s tp q k b,
    predictionInputs games = Normal (t, tableOf f, s, tp, Fin q) /\
    (6 <= q <= 54)%Q /\
    hybridScoring t (tableOf f) tp (Fin q) = (Fin k, Fin b) /\
    (0 <= k)%Q /\ (0 <= b)%Q /\ (0 < k + b)%Q /\
    0 <= Qfloor (k / (k + b) * 100 + (1 # 2)) <= 100 /\
    predictNextOutcome games
    = Normal (Predicted
                (ofZ (Qfloor (k / (k + b) * 100 + (1 # 2))))
                (ofZ (100 - Qfloor (k / (k + b) * 100 + (1 # 2))))
                (mkReasoning t (tableOf f) s tp
                   (div (round (mul (Fin q) (Fin 10))) (Fin 10)))).
Proof.
  intros Hv Hlen.
  destruct (predictionInputs_valid games Hv) as (t & f & s & tp & q & E & H);
    [lia|].
  destruct H as (Hf & Hsum & Htp & Hq).
  destruct (hybridScoring_signs t f tp q Hf Hsum Htp Hq) as (Hk & Hb & Ht).
  exists t, f, s, tp, q.
  unfold predictNextOutcome.
  replace (length games <? 5)%nat with false
    by (symmetry; apply Nat.ltb_ge; exact Hlen).
  rewrite E; cbn [bind].
  destruct (hybridScoring t (tableOf f) tp (Fin q)) as [[k| |] [b| |]];
    cbn [fst snd nonneg] in Hk, Hb; try contradiction.
  cbn [fst snd add atLeast] in Ht.
  assert (Hpos : (0 < k + b)%Q) by lra.
  exists k, b.
  cbn [add div]; rewrite (Qeq_bool_pos _ Hpos); cbn [mul round].
  rewrite sub_100_ofZ.
  split; [reflexivity|]. split; [exact Hq|]. split; [reflexivity|].
  split; [exact Hk|]. split; [exact Hb|]. split; [exact Hpos|].
  split; [now apply round_bounds | reflexivity].
Qed.

Lemma predictNextOutcome_short (games : list game) :
  (length games < 5)%nat ->
  predictNextOutcome games
  = Normal (CannotPredict "Data belum cukup (minimal 5 game)").
Proof.
  intros Hlen; unfold predictNextOutcome.
  now replace (length games <? 5)%nat with true by (symmetry; now apply Nat.ltb_lt).
Qed.

Lemma predictNextOutcome_no_throw (games : list game) :
  validLog games -> predictNextOutcome games <> TypeError.
Proof.
  intros Hv; destruct (Nat.lt_ge_cases (length games) 5) as [Hlen|Hlen].
  - rewrite predictNextOutcome_short by assumption; discriminate.
  - destruct (predictNextOutcome_valid games Hv Hlen)
      as (t & f & s & tp & q & k & b & H).
    destruct H as (_ & _ & _ & _ & _ & _ & _ & ->); discriminate.
Qed.

Lemma getStateTransitionProbability_no_throw (games : list game) (s : State) :
  statesKnown games -> s <> UNKNOWN ->
  getStateTransitionProbability s games <> TypeError.
Proof.
  intros Hk Hs; destruct (Nat.lt_ge_cases (length games) 2) as [Hlen|Hlen].
  - destruct games as [|g0 [|g1 rest]]; cbn [length] in Hlen; try lia; discriminate.
  - rewrite getStateTransitionProbability_known by assumption.
    destruct (rowTotal s games =? 0); discriminate.
Qed.

Lemma buildTransitionMatrix_no_throw (games : list game) :
  statesKnown games -> buildTransitionMatrix games <> TypeError.
Proof.
  intros Hk; destruct (Nat.lt_ge_cases (length games) 2) as [Hlen|Hlen].
  - destruct games as [|g0 [|g1 rest]]; cbn [length] in Hlen; try lia; discriminate.
  - rewrite buildTransitionMatrix_known by assumption; discriminate.
Qed.

(** ** The window and its aggregates *)

(** X4. [getRecentGames(count)] keeps the last [min(count, length)] rounds
    for a positive [count], and the whole log for [count = 0], since
    [slice(-0)] is [slice(0)]; what it drops is a prefix of the log.  A
    shorter window taken from a longer one is the shorter window of the
    log, so the 15 rounds of the chart are the newest 15 of the 20 rounds
    the aggregates use. *)
Theorem getRecentGames_slice (count extra : nat) (games : list game) :
  getRecentGames 0 games = games /\
  length (getRecentGames (S count) games) = Nat.min (S count) (length games) /\
  (exists older, games = older ++ getRecentGames count games) /\
  getRecentGames (S count) (getRecentGames (S (count + extra)) games)
  = getRecentGames (S count) games.
Proof.
  split; [reflexivity|]. split; [|split].
  - unfold getRecentGames, slice_last; rewrite length_skipn; lia.
  - destruct count as [|n].
    + exists []; reflexivity.
    + exists (firstn (length games - S n) games).
      unfold getRecentGames, slice_last; now rewrite firstn_skipn.
  - unfold getRecentGames, slice_last.
    rewrite skipn_skipn, length_skipn; f_equal; lia.
Qed.

Lemma countDirection_total (l : list game) :
  countDirection naik l + countDirection turun l + countDirection stabil l
  = Z.of_nat (length l).
Proof.
  unfold countDirection; induction l as [|g l IH]; [reflexivity|].
  cbn [filter length]; destruct (direction (trend g));
    cbn [Direction_eqb length]; lia.
Qed.

Lemma countDirection_nonneg (d : Direction) (l : list game) :
  0 <= countDirection d l.
Proof. unfold countDirection; lia. Qed.

(** X5. [analyzeTrendDirection] is [null] exactly on the empty log;
    otherwise its three counts are not negative and add up to the size of
    the window, [min(20, length)]: every round of the window is counted
    once, as up, down or stable. *)
Theorem analyzeTrendDirection_total (games : list game) :
  match analyzeTrendDirection games with
  | None => games = []
  | Some t =>
      games <> [] /\
      0 <= upCount t /\ 0 <= downCount t /\ 0 <= stableCount t /\
      upCount t + downCount t + stableCount t
      = Z.of_nat (Nat.min 20 (length games))
  end.
Proof.
  destruct games as [|g l]; [reflexivity|].
  assert (Hne : g :: l <> []) by discriminate.
  rewrite analyzeTrendDirection_counts by assumption.
  cbn [upCount downCount stableCount].
  split; [exact Hne|].
  repeat split; try apply countDirection_nonneg.
  now rewrite countDirection_total, getRecentGames_length.
Qed.

Lemma countClassification_total (l : list game) :
  countClassification KECIL l + countClassification BESAR l
  = Z.of_nat (length l).
Proof.
  unfold countClassification; induction l as [|g l IH]; [reflexivity|].
  cbn [filter length]; destruct (classification g); cbn [length]; lia.
Qed.

(** X6. The two counts of [getClassificationFrequency] are not negative
    and add up to [min(20, length)] on every log, the empty one included:
    each round of the window is KECIL or BESAR. *)
Theorem getClassificationFrequency_total (games : list game) :
  0 <= freqKECIL (getClassificationFrequency games) /\
  0 <= freqBESAR (getClassificationFrequency games) /\
  freqKECIL (getClassificationFrequency games)
  + freqBESAR (getClassificationFrequency games)
  = Z.of_nat (Nat.min 20 (length games)).
Proof.
  rewrite getClassificationFrequency_counts; cbn [freqKECIL freqBESAR].
  rewrite countClassification_total, getRecentGames_length.
  unfold countClassification; repeat split; lia.
Qed.

Lemma existsb_unknown_false (l : list game) :
  existsb (fun g => negb (known (state2 g))) l = false ->
  Forall (fun g => state2 g <> UNKNOWN) l.
Proof.
  induction l as [|g l IH]; cbn [existsb]; [constructor|].
  intros H; apply orb_false_iff in H; destruct H as [Hg Hl].
  constructor; [|now apply IH].
  intros U; rewrite U in Hg; discriminate.
Qed.

(** X7. On a non-empty log [getStateDominance] holds, for each of the four
    named states, the number of rounds of the window whose second roll is
    in that state.  When every such round has a named state the counts add
    up to [min(20, length)]; as soon as one round of the window ends in
    UNKNOWN the object gains a fifth property [UNKNOWN] holding [NaN], and
    the sum of its values is [NaN]. *)
Theorem getStateDominance_counts (games : list game) :
  games <> [] ->
  getStateDominance games
  = tableOf (fun s => countState2 s (getRecentGames maxMemoryWindow games))
    ++ (if unknownInWindow games then [(UNKNOWN, NaN)] else []) /\
  sum (values (getStateDominance games))
  = if unknownInWindow games then NaN
    else ofZ (Z.of_nat (Nat.min 20 (length games))).
Proof.
  intros Hne.
  assert (E : getStateDominance games
              = tableOf (fun s => countState2 s
                                    (getRecentGames maxMemoryWindow games))
                ++ (if unknownInWindow games then [(UNKNOWN, NaN)] else [])).
  { destruct games as [|g l]; [congruence|].
    unfold getStateDominance, unknownInWindow.
    change [(LOW, Fin 0); (MID, Fin 0); (HIGH, Fin 0); (EXTREME, Fin 0)]
      with (tableOf (fun _ => 0) ++ (if false then [(UNKNOWN, NaN)] else [])).
    now rewrite fold_stateCounts_any. }
  split; [exact E|].
  rewrite E; unfold values; rewrite map_app; fold (values (tableOf
    (fun s => countState2 s (getRecentGames maxMemoryWindow games)))).
  unfold sum; rewrite fold_left_app; fold (sum (values (tableOf
    (fun s => countState2 s (getRecentGames maxMemoryWindow games))))).
  rewrite sum_tableOf.
  destruct (unknownInWindow games) eqn:U; [reflexivity|].
  cbn [map fold_left]; f_equal.
  rewrite countState2_total, getRecentGames_length; [reflexivity|].
  now apply existsb_unknown_false.
Qed.

Lemma getStateDominance_counts_witness :
  getStateDominance (logOf [(10, 10); (10, 60)])
  = [(LOW, Fin 1); (MID, Fin 0); (HIGH, Fin 0); (EXTREME, Fin 0); (UNKNOWN, NaN)]
  /\ sum (values (getStateDominance (logOf [(10, 10); (10, 60)]))) = NaN.
Proof.
  assert (Hne : logOf [(10, 10); (10, 60)] <> []) by discriminate.
  destruct (getStateDominance_counts _ Hne) as [E S].
  split; [rewrite E; reflexivity | rewrite S; reflexivity].
Defined.

(** ** Transitions: conservation and growth *)

Lemma length_removelast_pred {A} (l : list A) :
  length (removelast l) = (length l - 1)%nat.
Proof.
  induction l as [|a [|b l] IH]; try reflexivity.
  change (removelast (a :: b :: l)) with (a :: removelast (b :: l)).
  cbn [length] in *; lia.
Qed.

Lemma Forall_removelast {A} (P : A -> Prop) (l : list A) :
  Forall P l -> Forall P (removelast l).
Proof.
  induction l as [|a [|b l] IH]; intros H; try constructor.
  - inversion H; assumption.
  - apply IH; inversion H; assumption.
Qed.

Lemma rowTotal_cons (A : State) (p g : game) (rest : list game) :
  state1 g <> UNKNOWN ->
  rowTotal A (p :: g :: rest)
  = (if State_eqb (state2 p) A then 1 else 0) + rowTotal A (g :: rest).
Proof.
  intros Hg; unfold rowTotal; rewrite !pairCount_cons.
  destruct (State_eqb (state2 p) A), (state1 g); try congruence;
    cbn [andb State_eqb]; lia.
Qed.

Lemma rowTotal_sources (A : State) (games : list game) :
  statesKnown games -> rowTotal A games = countState2 A (removelast games).
Proof.
  induction games as [|p [|g rest] IH]; intros Hk; try reflexivity.
  inversion Hk as [|? ? _ Hk']; subst.
  inversion Hk' as [|? ? [Hg _] _]; subst.
  rewrite rowTotal_cons by assumption.
  change (removelast (p :: g :: rest)) with (p :: removelast (g :: rest)).
  rewrite countState2_cons, IH by assumption; reflexivity.
Qed.

(** X8. On a log whose states are all named, the row of a state in the
    transition matrix sums to the number of rounds, other than the last,
    that end in that state; the sixteen cells together count the
    [length - 1] consecutive pairs, each once; and from two rounds on
    [getStateTransitionProbability] is [null] for a state exactly when no
    round before the last ends in it. *)
Theorem transitions_conserved (games : list game) :
  statesKnown games ->
  (forall A, rowTotal A games = countState2 A (removelast games)) /\
  rowTotal LOW games + rowTotal MID games + rowTotal HIGH games
  + rowTotal EXTREME games = Z.of_nat (length games - 1) /\
  ((2 <= length games)%nat ->
   forall A, A <> UNKNOWN ->
     (getStateTransitionProbability A games = Normal None <->
      countState2 A (removelast games) = 0)).
Proof.
  intros Hk.
  assert (R : forall A, rowTotal A games = countState2 A (removelast games))
    by (intros A; now apply rowTotal_sources).
  split; [exact R|]. split.
  - rewrite !R, countState2_total, length_removelast_pred; [reflexivity|].
    apply Forall_removelast, statesKnown_state2, Hk.
  - intros Hlen A HA.
    rewrite getStateTransitionProbability_known, R by assumption.
    destruct (Z.eqb_spec (countState2 A (removelast games)) 0);
      split; intros H; try congruence; try discriminate.
Qed.

Lemma transitions_conserved_witness :
  rowTotal LOW logThirds + rowTotal MID logThirds + rowTotal HIGH logThirds
  + rowTotal EXTREME logThirds = 3 /\
  getStateTransitionProbability HIGH logThirds = Normal None.
Proof.
  destruct (transitions_conserved logThirds statesKnown_logThirds)
    as (_ & T & N).
  split; [exact T|].
  assert (Hlen : (2 <= length logThirds)%nat) by (cbn; lia).
  assert (HA : HIGH <> UNKNOWN) by discriminate.
  apply (N Hlen HIGH HA); reflexivity.
Defined.

Lemma getLastState_cons (p g : game) (rest : list game) :
  getLastState (p :: g :: rest) = getLastState (g :: rest).
Proof.
  unfold getLastState; cbn [length]; rewrite !Nat.sub_succ, !Nat.sub_0_r.
  reflexivity.
Qed.

Lemma getLastState_snoc (games : list game) (g : game) :
  getLastState (games ++ [g]) = Some (state2 g).
Proof.
  induction games as [|p [|q rest] IH]; try reflexivity.
  change ((p :: q :: rest) ++ [g]) with (p :: q :: (rest ++ [g])).
  rewrite getLastState_cons; exact IH.
Qed.

Lemma pairCount_snoc (A B : State) (games : list game) (g : game) :
  pairCount A B (games ++ [g])
  = pairCount A B games
    + match getLastState games with
      | Some s => if State_eqb s A && State_eqb (state1 g) B then 1 else 0
      | None => 0
      end.
Proof.
  induction games as [|p [|q rest] IH]; try reflexivity.
  - cbn [app]; rewrite pairCount_cons, !pairCount_single.
    cbn [getLastState length Nat.sub nth_error option_map]; lia.
  - change ((p :: q :: rest) ++ [g]) with (p :: (q :: rest) ++ [g]).
    change ((q :: rest) ++ [g]) with (q :: (rest ++ [g])) at 1.
    rewrite pairCount_cons.
    change (q :: rest ++ [g]) with ((q :: rest) ++ [g]).
    rewrite IH, getLastState_cons, (pairCount_cons A B p q rest); lia.
Qed.

(** X9. An accepted submission to a valid log that is not empty makes the
    state of its second roll the last state and adds exactly one
    transition to the matrix, from the previous last state to the state of
    its first roll; every other cell keeps its count. *)
Theorem submission_adds_one_transition
    (r1 r2 : Z) (games : list game) (previous : State) :
  validLog games -> getLastState games = Some previous ->
  6 <= r1 <= 54 -> 6 <= r2 <= 54 ->
  getLastState (handleFormSubmit r1 r2 games) = Some (getState r2) /\
  buildTransitionMatrix (handleFormSubmit r1 r2 games)
  = Normal (Some (matrixOf
      (fun A B =>
         pairCount A B games
         + if State_eqb previous A && State_eqb (getState r1) B then 1 else 0))).
Proof.
  intros Hv Hlast H1 H2.
  assert (Hacc : accepted (r1, r2) = true)
    by (unfold accepted, inRange; cbn [fst snd];
        repeat (apply andb_true_intro; split); lia).
  rewrite handleFormSubmit_accepted, Hacc.
  split; [apply getLastState_snoc|].
  assert (Hne : games <> []) by (intros ->; discriminate Hlast).
  assert (Hv' : validLog (games ++ [newGame r1 r2])).
  { apply Forall_app; split; [exact Hv|].
    repeat constructor; apply wellFormed_newGame; lia. }
  rewrite buildTransitionMatrix_known.
  - f_equal; f_equal; apply matrixOf_ext; intros A B.
    rewrite pairCount_snoc, Hlast; reflexivity.
  - rewrite length_app; cbn [length].
    destruct games; [congruence | cbn [length]; lia].
  - now apply validLog_statesKnown.
Qed.

Lemma submission_adds_one_transition_witness :
  buildTransitionMatrix (handleFormSubmit 40 10 logThirds)
  = Normal (Some (matrixOf
      (fun A B =>
         pairCount A B logThirds
         + if State_eqb LOW A && State_eqb HIGH B then 1 else 0))).
Proof.
  assert (Hv : validLog logThirds) by now apply validLog_accepted.
  assert (Hlast : getLastState logThirds = Some LOW) by reflexivity.
  assert (H1 : 6 <= 40 <= 54) by lia.
  assert (H2 : 6 <= 10 <= 54) by lia.
  exact (proj2 (submission_adds_one_transition 40 10 logThirds LOW Hv Hlast H1 H2)).
Defined.

(** ** Transition percentages: range and row sum *)

Lemma roundedPercent_range (c t : Z) :
  0 <= c <= t -> 0 < t -> 0 <= roundedPercent c t <= 100.
Proof.
  intros Hc Ht; split; [apply roundedPercent_nonneg; lia|].
  rewrite roundedPercent_div by assumption.
  apply Z.lt_succ_r, Z.div_lt_upper_bound; lia.
Qed.

Lemma roundedPercent_row (a b c d : Z) :
  0 <= a -> 0 <= b -> 0 <= c -> 0 <= d -> 0 < a + b + c + d ->
  99 <= roundedPercent a (a + b + c + d) + roundedPercent b (a + b + c + d)
        + roundedPercent c (a + b + c + d) + roundedPercent d (a + b + c + d)
     <= 102.
Proof.
  intros Ha Hb Hc Hd Ht; set (t := a + b + c + d) in *.
  pose proof (roundedPercent_nearest a t Ht).
  pose proof (roundedPercent_nearest b t Ht).
  pose proof (roundedPercent_nearest c t Ht).
  pose proof (roundedPercent_nearest d t Ht).
  set (pa := roundedPercent a t) in *; set (pb := roundedPercent b t) in *.
  set (pc := roundedPercent c t) in *; set (pd := roundedPercent d t) in *.
  assert (L : t * 196 < t * (2 * (pa + pb + pc + pd))) by (unfold t in *; lia).
  assert (U : t * (2 * (pa + pb + pc + pd)) <= t * 204) by (unfold t in *; lia).
  apply Z.mul_lt_mono_pos_l in L; [|exact Ht].
  apply Z.mul_le_mono_pos_l in U; [|exact Ht].
  lia.
Qed.

(** X10. When [getStateTransitionProbability] returns a row for one of the
    four states of a log with named states, the row has the four
    properties LOW, MID, HIGH, EXTREME, each an integer between 0 and 100,
    and because each is rounded on its own, to within one half of the
    exact percentage, their sum lies between 98 and 102. *)
Theorem transition_percentages_range
    (games : list game) (fromState : State) (prob : obj num) :
  statesKnown games -> fromState <> UNKNOWN ->
  getStateTransitionProbability fromState games = Normal (Some prob) ->
  exists pLow pMid pHigh pExtreme : Z,
    prob = [(LOW, ofZ pLow); (MID, ofZ pMid); (HIGH, ofZ pHigh);
            (EXTREME, ofZ pExtreme)] /\
    0 <= pLow <= 100 /\ 0 <= pMid <= 100 /\
    0 <= pHigh <= 100 /\ 0 <= pExtreme <= 100 /\
    98 <= pLow + pMid + pHigh + pExtreme <= 102.
Proof.
  intros Hk Hf E.
  assert (Hlen : (2 <= length games)%nat).
  { destruct games as [|g0 [|g1 rest]]; try discriminate E; cbn [length]; lia. }
  rewrite getStateTransitionProbability_known in E by assumption.
  destruct (Z.eqb_spec (rowTotal fromState games) 0) as [|Ht]; [discriminate|].
  injection E as <-.
  pose proof (rowTotal_nonneg fromState games) as Hn.
  pose proof (pairCount_nonneg fromState LOW games).
  pose proof (pairCount_nonneg fromState MID games).
  pose proof (pairCount_nonneg fromState HIGH games).
  pose proof (pairCount_nonneg fromState EXTREME games).
  do 4 eexists; split; [reflexivity|].
  unfold rowTotal in *.
  repeat (split; [apply roundedPercent_range; lia|]).
  pose proof (roundedPercent_row
                (pairCount fromState LOW games) (pairCount fromState MID games)
                (pairCount fromState HIGH games)
                (pairCount fromState EXTREME games)).
  lia.
Qed.

Lemma transition_percentages_range_witness :
  exists pLow pMid pHigh pExtreme : Z,
    getStateTransitionProbability LOW logThirds
    = Normal (Some [(LOW, ofZ pLow); (MID, ofZ pMid); (HIGH, ofZ pHigh);
                    (EXTREME, ofZ pExtreme)]) /\
    98 <= pLow + pMid + pHigh + pExtreme <= 102.
Proof.
  assert (Hf : LOW <> UNKNOWN) by discriminate.
  assert (E : getStateTransitionProbability LOW logThirds
              = Normal (Some [(LOW, Fin 33); (MID, Fin 33); (HIGH, Fin 33);
                              (EXTREME, Fin 0)])) by reflexivity.
  destruct (transition_percentages_range logThirds LOW _
              statesKnown_logThirds Hf E)
    as (a & b & c & d & P & _ & _ & _ & _ & S).
  exists a, b, c, d; split; [rewrite E, P; reflexivity | exact S].
Defined.

(** ** Rounds as they are stored *)

Lemma getState_monotone (r1 r2 : Z) :
  6 <= r1 -> r1 <= r2 -> r2 <= 54 -> band (getState r1) <= band (getState r2).
Proof.
  intros H1 H12 H2; classify r1; classify r2; cbn [band]; lia.
Qed.

(** X11. In the round stored for two rolls of [6,54], [diff] is
    [roll2 - roll1], between -48 and 48; the direction is up exactly when
    the second roll is larger and down exactly when it is smaller; a round
    going up never ends in a lower band than it starts in, a round going
    down never in a higher one, and a stable round starts and ends in the
    same state. *)
Theorem stored_round_trend (r1 r2 : Z) :
  6 <= r1 <= 54 -> 6 <= r2 <= 54 ->
  diff (trend (newGame r1 r2)) = r2 - r1 /\
  -48 <= r2 - r1 <= 48 /\
  (direction (trend (newGame r1 r2)) = naik <-> r1 < r2) /\
  (direction (trend (newGame r1 r2)) = turun <-> r2 < r1) /\
  (direction (trend (newGame r1 r2)) = stabil <-> r1 = r2) /\
  (direction (trend (newGame r1 r2)) = naik ->
   band (state1 (newGame r1 r2)) <= band (state2 (newGame r1 r2))) /\
  (direction (trend (newGame r1 r2)) = turun ->
   band (state2 (newGame r1 r2)) <= band (state1 (newGame r1 r2))) /\
  (direction (trend (newGame r1 r2)) = stabil ->
   state1 (newGame r1 r2) = state2 (newGame r1 r2)).
Proof.
  intros H1 H2; cbn [newGame trend state1 state2]; rewrite calculateTrend_ofZ.
  destruct (Z.gtb_spec (r2 - r1) 0) as [Hup|Hup];
    [|destruct (Z.ltb_spec (r2 - r1) 0) as [Hdown|Hdown]];
    cbn [diff direction];
    (split; [reflexivity|]); (split; [lia|]);
    (split; [split; intros; try discriminate; try reflexivity; lia|]);
    (split; [split; intros; try discriminate; try reflexivity; lia|]);
    (split; [split; intros; try discriminate; try reflexivity; lia|]);
    (split; [intros; try discriminate; apply getState_monotone; lia|]);
    (split; [intros; try discriminate; apply getState_monotone; lia|]);
    intros; try discriminate; do 2 f_equal; lia.
Qed.

Lemma stored_round_trend_witness :
  direction (trend (newGame 10 40)) = naik /\
  band (state1 (newGame 10 40)) <= band (state2 (newGame 10 40)).
Proof.
  assert (H1 : 6 <= 10 <= 54) by lia.
  assert (H2 : 6 <= 40 <= 54) by lia.
  destruct (stored_round_trend 10 40 H1 H2) as (_ & _ & U & _ & _ & M & _).
  assert (D : direction (trend (newGame 10 40)) = naik) by (apply U; lia).
  split; [exact D | exact (M D)].
Defined.

Lemma wellFormed_classification (g : game) :
  wellFormed g ->
  (classification g = KECIL /\ lowOrMid (state2 g) = true) \/
  (classification g = BESAR /\ highOrExtreme (state2 g) = true).
Proof.
  intros (r1 & r2 & _ & H2 & ->); cbn [newGame classification state2].
  destruct (getClassification_cases r2) as [[? ->] | [? ->]];
    classify r2; cbn [lowOrMid highOrExtreme];
    first [left; split; reflexivity | right; split; reflexivity | lia].
Qed.

Lemma countClassification_states (l : list game) :
  validLog l ->
  countClassification KECIL l = countState2 LOW l + countState2 MID l /\
  countClassification BESAR l = countState2 HIGH l + countState2 EXTREME l.
Proof.
  induction 1 as [|g l Hg _ [IHk IHb]]; [split; reflexivity|].
  rewrite !countState2_cons.
  unfold countClassification in *; cbn [filter].
  destruct (wellFormed_classification g Hg) as [[-> S] | [-> S]];
    destruct (state2 g); try discriminate S;
    cbn [length State_eqb]; rewrite ?Nat2Z.inj_succ; lia.
Qed.

(** X12. On a valid log the classification frequency repeats the state
    dominance: the KECIL count is the LOW count plus the MID count of
    [getStateDominance], and the BESAR count is the HIGH count plus the
    EXTREME count, over the same window. *)
Theorem frequency_matches_dominance (games : list game) :
  validLog games -> games <> [] ->
  add (toNumber (get (getStateDominance games) LOW))
      (toNumber (get (getStateDominance games) MID))
  = ofZ (freqKECIL (getClassificationFrequency games)) /\
  add (toNumber (get (getStateDominance games) HIGH))
      (toNumber (get (getStateDominance games) EXTREME))
  = ofZ (freqBESAR (getClassificationFrequency games)).
Proof.
  intros Hv Hne.
  rewrite getStateDominance_known, getClassificationFrequency_counts;
    [|exact Hne | apply statesKnown_state2, validLog_statesKnown, Hv].
  rewrite !get_tableOf; cbn [known toNumber freqKECIL freqBESAR].
  rewrite !add_ofZ.
  destruct (countClassification_states
              (getRecentGames maxMemoryWindow games)) as [-> ->];
    [now apply Forall_getRecentGames | split; reflexivity].
Qed.

Lemma frequency_matches_dominance_witness :
  add (toNumber (get (getStateDominance logFive) LOW))
      (toNumber (get (getStateDominance logFive) MID))
  = ofZ (freqKECIL (getClassificationFrequency logFive)).
Proof.
  assert (Hne : logFive <> []) by discriminate.
  exact (proj1 (frequency_matches_dominance logFive validLog_logFive Hne)).
Defined.

(** ** Prediction on logs with rolls out of range *)

Lemma nanOrNonneg_add (a b : num) :
  nanOrNonneg a -> nanOrNonneg b -> nanOrNonneg (add a b).
Proof.
  intros [-> | Ha] [-> | Hb]; try (left; now destruct a); try (left; reflexivity).
  right; now apply add_nonneg.
Qed.

Lemma nanOrNonneg_incr (v : option num) :
  match v with Some n => nanOrNonneg n | None => True end ->
  nanOrNonneg (incr v).
Proof.
  destruct v as [n|]; [|left; reflexivity].
  intros H; apply nanOrNonneg_add; [exact H|].
  right; cbn; lra.
Qed.

Lemma nanOrNonneg_sum (l : list num) :
  Forall nanOrNonneg l -> nanOrNonneg (sum l).
Proof.
  unfold sum; assert (H0 : nanOrNonneg (Fin 0)) by (right; cbn; lra).
  revert H0; generalize (Fin 0).
  induction l as [|x l IH]; intros acc Hacc Hl; [exact Hacc|].
  inversion Hl; subst; cbn [fold_left].
  apply IH; [now apply nanOrNonneg_add | assumption].
Qed.

Lemma get_In_values {V} (o : obj V) (k : State) (v : V) :
  get o k = Some v -> In v (values o).
Proof.
  induction o as [|[k' v'] o IH]; cbn [get values map snd]; [discriminate|].
  destruct (State_eqb k k'); [intros [= ->]; now left | right; now apply IH].
Qed.

Lemma Forall_values_set {V} (P : V -> Prop) (o : obj V) (k : State) (v : V) :
  Forall P (values o) -> P v -> Forall P (values (set o k v)).
Proof.
  intros Ho Hv; induction o as [|[k' v'] o IH]; cbn [set values map snd].
  - repeat constructor; exact Hv.
  - cbn [values map snd] in Ho; inversion Ho; subst.
    destruct (State_eqb k k'); cbn [map snd]; constructor; auto.
Qed.

Lemma get_nanOrNonneg (o : obj num) (k : State) :
  Forall nanOrNonneg (values o) ->
  match get o k with Some n => nanOrNonneg n | None => True end.
Proof.
  intros H; destruct (get o k) as [n|] eqn:E; [|exact I].
  exact (proj1 (Forall_forall _ _) H n (get_In_values o k n E)).
Qed.

Lemma increment_cells (m m' : matrix) (A B : State) :
  increment m A B = Normal m' -> cellsNanOrNonneg m -> cellsNanOrNonneg m'.
Proof.
  unfold increment; destruct (get m A) as [row|] eqn:E; [|discriminate].
  intros [= <-] Hm A0 row0.
  destruct (State_eqb_spec A A0) as [<-|Hne].
  - rewrite get_set_same; intros [= <-].
    apply Forall_values_set; [now apply (Hm A)|].
    apply nanOrNonneg_incr, get_nanOrNonneg; now apply (Hm A).
  - rewrite get_set_other by assumption; apply Hm.
Qed.

Lemma transitionLoop_cells (rest : list game) :
  forall (m m' : matrix) (prev : game),
    transitionLoop m prev rest = Normal m' ->
    cellsNanOrNonneg m -> cellsNanOrNonneg m'.
Proof.
  induction rest as [|g rest IH]; intros m m' prev; cbn [transitionLoop].
  - now intros [= <-].
  - destruct (increment m (state2 prev) (state1 g)) as [m1|] eqn:E;
      cbn [bind]; [|discriminate].
    intros L Hm; eapply IH; [exact L|].
    eapply increment_cells; eauto.
Qed.

Lemma zeroMatrix_cells : cellsNanOrNonneg zeroMatrix.
Proof.
  assert (Z : nanOrNonneg (Fin 0)) by (right; cbn; lra).
  intros A row; destruct A; cbn; intros [= <-];
    repeat (apply Forall_cons; [exact Z|]); apply Forall_nil.
Qed.

Lemma buildTransitionMatrix_cells (games : list game) (m : matrix) :
  buildTransitionMatrix games = Normal (Some m) -> cellsNanOrNonneg m.
Proof.
  destruct games as [|g0 [|g1 rest]]; try discriminate.
  unfold buildTransitionMatrix.
  destruct (transitionLoop zeroMatrix g0 (g1 :: rest)) as [m1|] eqn:E;
    cbn [bind]; [|discriminate].
  intros [= <-]; eapply transitionLoop_cells; [exact E | apply zeroMatrix_cells].
Qed.

Lemma percent_nanOrNonneg (count total : num) :
  nanOrNonneg count -> nanOrNonneg total -> strict_eq total (Fin 0) = false ->
  nanOrNonneg (round (mul (div count total) (Fin 100))).
Proof.
  intros [-> | Hc] [-> | Ht] Hz; try (left; reflexivity).
  - left; now destruct count.
  - destruct count as [c| |], total as [t| |]; cbn in Hc, Ht; try contradiction.
    cbn [strict_eq] in Hz; right.
    assert (Hpos : (0 < t)%Q).
    { apply Qle_lteq in Ht; destruct Ht as [Ht|Ht]; [exact Ht|].
      apply Qeq_sym, Qeq_eq_bool in Ht; congruence. }
    cbn [div]; rewrite Hz; cbn [mul round].
    assert (L : (0 <= c / t)%Q) by (apply Qle_shift_div_l; lra).
    apply nonneg_ofZ, Z.le_trans with (Qfloor 0); [discriminate|].
    apply Qfloor_resp_le.
    set (x := (c / t)%Q) in *; clearbody x; lra.
Qed.

Lemma fold_percent_nanOrNonneg (total : num) (l : list (State * num)) :
  nanOrNonneg total -> strict_eq total (Fin 0) = false ->
  Forall nanOrNonneg (map snd l) ->
  forall acc : obj num,
    Forall nanOrNonneg (values acc) ->
    Forall nanOrNonneg
      (values
         (fold_left
            (fun probability '(toState, count) =>
               set probability toState (round (mul (div count total) (Fin 100))))
            l acc)).
Proof.
  intros Ht Hz; induction l as [|[k c] l IH]; intros Hl acc Hacc; [exact Hacc|].
  cbn [map snd] in Hl; inversion Hl; subst; cbn [fold_left].
  apply IH; [assumption|].
  apply Forall_values_set; [exact Hacc | now apply percent_nanOrNonneg].
Qed.

Lemma getStateTransitionProbability_cells
    (games : list game) (s : State) (prob : obj num) :
  getStateTransitionProbability s games = Normal (Some prob) ->
  Forall nanOrNonneg (values prob).
Proof.
  unfold getStateTransitionProbability.
  destruct (buildTransitionMatrix games) as [[m|]|] eqn:E; cbn [bind];
    try discriminate.
  pose proof (buildTransitionMatrix_cells games m E) as Hm.
  destruct (get m s) as [row|] eqn:G; [|discriminate].
  destruct (strict_eq (sum (values row)) (Fin 0)) eqn:Z; [discriminate|].
  intros [= <-]; apply fold_percent_nanOrNonneg.
  - apply nanOrNonneg_sum; now apply (Hm s).
  - exact Z.
  - now apply (Hm s).
  - constructor.
Qed.

Lemma or0_get_nonneg (prob : obj num) (k : State) :
  Forall nanOrNonneg (values prob) -> nonneg (or0 (toNumber (get prob k))).
Proof.
  intros H; pose proof (get_nanOrNonneg prob k H) as G.
  destruct (get prob k) as [n|]; [|cbn; lra].
  destruct G as [-> | G]; [cbn; lra | now apply or0_nonneg].
Qed.

(** [hybridScoring_signs] for any transition row whose values are [NaN]
    or not negative. *)
Lemma hybridScoring_signs_any (t : TrendAnalysis) (f : State -> Z)
    (tp : option (obj num)) (q : Q) :
  (forall s, 0 <= f s) -> 0 < f LOW + f MID + f HIGH + f EXTREME ->
  match tp with
  | Some prob => Forall nanOrNonneg (values prob)
  | None => True
  end ->
  (6 <= q <= 54)%Q ->
  nonneg (fst (hybridScoring t (tableOf f) tp (Fin q))) /\
  nonneg (snd (hybridScoring t (tableOf f) tp (Fin q))) /\
  atLeast (3 # 20) (add (fst (hybridScoring t (tableOf f) tp (Fin q)))
                        (snd (hybridScoring t (tableOf f) tp (Fin q)))).
Proof.
  intros Hf Hsum Htp Hq.
  pose proof (center_nonneg q Hq) as Hc.
  assert (H03 : nonneg (Fin 0.30)) by (cbn; lra).
  assert (H025 : nonneg (Fin 0.25)) by (cbn; lra).
  assert (H100 : strictlyPositive (Fin 100)) by (cbn; lra).
  assert (Htot : strictlyPositive (sum (values (tableOf f))))
    by (rewrite sum_tableOf; auto with jsnum).
  unfold hybridScoring.
  rewrite !get_tableOf; cbn [known toNumber].
  set (total := sum (values (tableOf f))) in *.
  set (center := mul (Fin 0.20) _) in *.
  assert (HLM : nonneg (or0 (div (add (ofZ (f LOW)) (ofZ (f MID))) total)))
    by auto with jsnum.
  assert (HHE : nonneg (or0 (div (add (ofZ (f HIGH)) (ofZ (f EXTREME))) total)))
    by auto with jsnum.
  destruct tp as [prob|].
  - pose proof (or0_get_nonneg prob LOW Htp) as P1.
    pose proof (or0_get_nonneg prob MID Htp) as P2.
    pose proof (or0_get_nonneg prob HIGH Htp) as P3.
    pose proof (or0_get_nonneg prob EXTREME Htp) as P4.
    set (x1 := or0 (toNumber (get prob LOW))) in *.
    set (x2 := or0 (toNumber (get prob MID))) in *.
    set (x3 := or0 (toNumber (get prob HIGH))) in *.
    set (x4 := or0 (toNumber (get prob EXTREME))) in *.
    assert (HtLM : nonneg (or0 (div (add x1 x2) (Fin 100)))) by auto 8 with jsnum.
    assert (HtHE : nonneg (or0 (div (add x3 x4) (Fin 100)))) by auto 8 with jsnum.
    destruct (downCount t >? upCount t), (lt (Fin q) (Fin 30)); cbn [fst snd];
      repeat split; auto 10 with jsnum.
  - destruct (downCount t >? upCount t), (lt (Fin q) (Fin 30)); cbn [fst snd];
      repeat split; auto 8 with jsnum.
Qed.

Lemma known_getState (r : Z) : known (getState r) = inRange r.
Proof.
  unfold inRange; classify r; cbn [known];
    destruct (Z.leb_spec 6 r), (Z.leb_spec r 54); cbn [andb];
    try reflexivity; lia.
Qed.

Lemma existsb_unknown_logOf (rolls : list (Z * Z)) :
  existsb (fun g => negb (known (state2 g))) (logOf rolls)
  = secondRollOutside rolls.
Proof.
  unfold secondRollOutside; induction rolls as [|[r1 r2] rolls IH];
    [reflexivity|].
  cbn [logOf map existsb newGame state2 snd]; fold (logOf rolls).
  now rewrite IH, known_getState.
Qed.

Lemma secondRollValid_logOf (rolls : list (Z * Z)) :
  secondRollOutside rolls = false -> Forall secondRollValid (logOf rolls).
Proof.
  unfold secondRollOutside; induction rolls as [|[r1 r2] rolls IH];
    cbn [existsb logOf map snd]; [constructor|].
  intros H; apply orb_false_iff in H; destruct H as [Hr Hl].
  constructor; [|now apply IH].
  unfold inRange in Hr.
  assert (H2 : 6 <= r2 <= 54)
    by (destruct (Z.leb_spec 6 r2), (Z.leb_spec r2 54); cbn in Hr;
        try discriminate; lia).
  split; [now apply getState_known | now exists r2].
Qed.

Lemma fold_roll2_valid (l : list game) :
  Forall secondRollValid l ->
  forall a : Z,
  exists s : Z,
    fold_left (fun sum g => add sum (roll2 g)) l (ofZ a) = ofZ (a + s) /\
    6 * Z.of_nat (length l) <= s <= 54 * Z.of_nat (length l).
Proof.
  induction 1 as [|g l (_ & r2 & H2 & E) _ IH]; intros a.
  - exists 0; split; [now rewrite Z.add_0_r | cbn; lia].
  - cbn [fold_left length]; rewrite E, add_ofZ.
    destruct (IH (a + r2)) as (s & Es & Hs).
    exists (r2 + s); split; [rewrite Es; f_equal; lia|].
    rewrite Nat2Z.inj_succ; lia.
Qed.

Lemma secondRollValid_average (games : list game) :
  games <> [] -> Forall secondRollValid games ->
  exists q, averageRoll2 games = Fin q /\ (6 <= q <= 54)%Q.
Proof.
  intros Hne Hv; unfold averageRoll2; change (Fin 0) with (ofZ 0).
  destruct (fold_roll2_valid games Hv 0) as (s & -> & Hs).
  apply average_bounds; [|lia].
  destruct games; [congruence | cbn [length]; lia].
Qed.

Lemma buildTransitionMatrix_sources_known (games : list game) :
  (2 <= length games)%nat ->
  Forall (fun g => state2 g <> UNKNOWN) games ->
  exists m, buildTransitionMatrix games = Normal (Some m) /\ map fst m = states.
Proof.
  intros Hlen Hk.
  destruct (buildTransitionMatrix_throws games) as [T K].
  assert (U : unknownSource games = false).
  { unfold unknownSource; apply Bool.not_true_is_false; intros E.
    apply existsb_exists in E; destruct E as (g & Hin & Hg).
    pose proof (Forall_removelast _ _ Hk) as Hr.
    pose proof (proj1 (Forall_forall _ _) Hr g Hin) as Hs; cbn beta in Hs.
    destruct (state2 g); cbn in Hg; congruence. }
  destruct (buildTransitionMatrix games) as [[m|]|] eqn:E.
  - exists m; split; [reflexivity | now apply K].
  - destruct games as [|g0 [|g1 rest]]; cbn [length] in Hlen; try lia.
    unfold buildTransitionMatrix in E.
    destruct (transitionLoop zeroMatrix g0 (g1 :: rest)); discriminate E.
  - destruct T as [T _]; specialize (T eq_refl).
    rewrite U, andb_false_r in T; discriminate T.
Qed.

Lemma predictionInputs_second_valid (games : list game) :
  (2 <= length games)%nat -> Forall secondRollValid games ->
  exists t f s tp q,
    predictionInputs games = Normal (t, tableOf f, s, tp, Fin q) /\
    (forall x, 0 <= f x) /\
    0 < f LOW + f MID + f HIGH + f EXTREME /\
    match tp with
    | Some prob => Forall nanOrNonneg (values prob)
    | None => True
    end /\
    (6 <= q <= 54)%Q.
Proof.
  intros Hlen Hv.
  assert (Hne : games <> []) by (intros E; rewrite E in Hlen; cbn in Hlen; lia).
  assert (Hk2 : Forall (fun g => state2 g <> UNKNOWN) games)
    by (revert Hv; apply Forall_impl; now intros g [H _]).
  destruct (getLastState_In games Hne) as (g & Hg & Hlast).
  assert (Hs : state2 g <> UNKNOWN)
    by (exact (proj1 (Forall_forall _ _) Hk2 g Hg)).
  destruct (secondRollValid_average games Hne Hv) as (q & Hq & Hqb).
  destruct (buildTransitionMatrix_sources_known games) as (m & Hm & Km);
    [lia | exact Hk2 |].
  assert (Hrow : get m (state2 g) <> None).
  { intros E; apply (get_keys_states m (state2 g) Km) in E.
    destruct (state2 g); cbn in E; congruence. }
  assert (Hp : exists tp, getStateTransitionProbability (state2 g) games
                          = Normal tp).
  { unfold getStateTransitionProbability; rewrite Hm; cbn [bind].
    destruct (get m (state2 g)) as [row|]; [|congruence].
    destruct (strict_eq (sum (values row)) (Fin 0)); eexists; reflexivity. }
  destruct Hp as (tp & Hp).
  unfold predictionInputs.
  rewrite analyzeTrendDirection_counts, Hlast, Hp by assumption; cbn [bind].
  rewrite getStateDominance_known, Hq by assumption.
  set (window := getRecentGames maxMemoryWindow games).
  do 5 eexists; split; [reflexivity|].
  split; [intros x; apply countState2_nonneg|]. split.
  - rewrite countState2_total by (now apply Forall_getRecentGames).
    unfold window; rewrite getRecentGames_length; lia.
  - split; [|exact Hqb].
    destruct tp as [prob|]; [|exact I].
    eapply getStateTransitionProbability_cells; exact Hp.
Qed.

Lemma predictionInputs_second_rolls (rolls : list (Z * Z)) :
  (2 <= length rolls)%nat -> secondRollOutside rolls = false ->
  exists t f s tp q,
    predictionInputs (logOf rolls) = Normal (t, tableOf f, s, tp, Fin q) /\
    (forall x, 0 <= f x) /\
    0 < f LOW + f MID + f HIGH + f EXTREME /\
    match tp with
    | Some prob => Forall nanOrNonneg (values prob)
    | None => True
    end /\
    (6 <= q <= 54)%Q.
Proof.
  intros Hlen Hin; apply predictionInputs_second_valid.
  - unfold logOf; now rewrite length_map.
  - now apply secondRollValid_logOf.
Qed.

(** With five rounds or more that all end in a named state on an integer
    of [6,54], the prediction is a split of integers. *)
Lemma predictNextOutcome_second_valid (games : list game) :
  (5 <= length games)%nat -> Forall secondRollValid games ->
  exists (kecilPercent : Z) (reasoning : Reasoning),
    predictNextOutcome games
    = Normal (Predicted (ofZ kecilPercent) (ofZ (100 - kecilPercent)) reasoning) /\
    0 <= kecilPercent <= 100.
Proof.
  intros Hlen Hv.
  assert (Hge : (length games <? 5)%nat = false) by (apply Nat.ltb_ge; lia).
  destruct (predictionInputs_second_valid games)
    as (t & f & s & tp & q & E & Hf & Hsum & Htp & Hq); [lia | exact Hv |].
  destruct (hybridScoring_signs_any t f tp q Hf Hsum Htp Hq) as (Hk & Hb & Ht).
  unfold predictNextOutcome; rewrite Hge, E; cbn [bind].
  destruct (hybridScoring t (tableOf f) tp (Fin q)) as [[k| |] [b| |]];
    cbn [fst snd nonneg] in Hk, Hb; try contradiction.
  cbn [fst snd add atLeast] in Ht.
  assert (Hpos : (0 < k + b)%Q) by lra.
  cbn [add div]; rewrite (Qeq_bool_pos _ Hpos); cbn [mul round].
  rewrite sub_100_ofZ.
  do 2 eexists; split; [reflexivity | now apply round_bounds].
Qed.

Lemma existsb_removelast_or_last {A} (P : A -> bool) (l : list A) (d : A) :
  existsb P l = true -> existsb P (removelast l) = true \/ P (last l d) = true.
Proof.
  destruct l as [|a l]; [discriminate|].
  assert (Hne : a :: l <> []) by discriminate.
  rewrite (app_removelast_last d Hne) at 1.
  rewrite existsb_app; cbn [existsb]; rewrite orb_false_r.
  intros H; apply orb_true_iff in H; exact H.
Qed.

Lemma predictionInputs_unknown_state2 (games : list game) :
  (2 <= length games)%nat ->
  existsb (fun g => negb (known (state2 g))) games = true ->
  predictionInputs games = TypeError.
Proof.
  intros Hlen Hex.
  destruct games as [|g0 rest]; [discriminate|].
  assert (Hne : g0 :: rest <> []) by discriminate.
  unfold predictionInputs.
  destruct (analyzeTrendDirection (g0 :: rest)) as [t|]; [|reflexivity].
  destruct (getLastState (g0 :: rest)) as [s|] eqn:Hlast; [|reflexivity].
  destruct (existsb_removelast_or_last _ _ g0 Hex) as [Hsrc|Hend].
  - destruct (buildTransitionMatrix_throws (g0 :: rest)) as [[_ T] _].
    unfold getStateTransitionProbability; rewrite T; [reflexivity|].
    apply andb_true_intro; split; [now apply Nat.leb_le | exact Hsrc].
  - assert (Hs : getLastState (g0 :: rest)
                 = Some (state2 (last (g0 :: rest) g0))).
    { rewrite (app_removelast_last g0 Hne) at 1; apply getLastState_snoc. }
    assert (Hs' : state2 (last (g0 :: rest) g0) = s) by congruence.
    cbn beta in Hend; rewrite Hs' in Hend.
    destruct s; cbn in Hend; try discriminate.
    rewrite getStateTransitionProbability_UNKNOWN.
    replace (2 <=? length (g0 :: rest))%nat with true
      by (symmetry; now apply Nat.leb_le).
    reflexivity.
Qed.

(** X13. For five rounds or more built from any integer rolls,
    [predictNextOutcome] fails exactly when some second roll lies outside
    [6,54]: the UNKNOWN state it produces is looked up as a row of the
    matrix.  When every second roll is in range it returns KECIL and BESAR
    as integers between 0 and 100 that sum to 100, even if first rolls are
    out of range: the [NaN] they leave in the matrix is replaced by 0 in
    the transition component. *)
Theorem predictNextOutcome_failure (rolls : list (Z * Z)) :
  (5 <= length rolls)%nat ->
  (secondRollOutside rolls = true ->
   predictNextOutcome (logOf rolls) = TypeError) /\
  (secondRollOutside rolls = false ->
   exists (kecilPercent : Z) (reasoning : Reasoning),
     predictNextOutcome (logOf rolls)
     = Normal (Predicted (ofZ kecilPercent) (ofZ (100 - kecilPercent)) reasoning) /\
     0 <= kecilPercent <= 100).
Proof.
  intros Hlen.
  assert (Hl : length (logOf rolls) = length rolls)
    by (unfold logOf; apply length_map).
  assert (Hge : (length (logOf rolls) <? 5)%nat = false)
    by (apply Nat.ltb_ge; lia).
  split; intros Hout.
  - unfold predictNextOutcome; rewrite Hge.
    rewrite predictionInputs_unknown_state2; [reflexivity | lia |].
    now rewrite existsb_unknown_logOf.
  - destruct (predictionInputs_second_rolls rolls)
      as (t & f & s & tp & q & E & Hf & Hsum & Htp & Hq); [lia | exact Hout |].
    destruct (hybridScoring_signs_any t f tp q Hf Hsum Htp Hq) as (Hk & Hb & Ht).
    unfold predictNextOutcome; rewrite Hge, E; cbn [bind].
    destruct (hybridScoring t (tableOf f) tp (Fin q)) as [[k| |] [b| |]];
      cbn [fst snd nonneg] in Hk, Hb; try contradiction.
    cbn [fst snd add atLeast] in Ht.
    assert (Hpos : (0 < k + b)%Q) by lra.
    cbn [add div]; rewrite (Qeq_bool_pos _ Hpos); cbn [mul round].
    rewrite sub_100_ofZ.
    do 2 eexists; split; [reflexivity | now apply round_bounds].
Qed.

Lemma predictNextOutcome_failure_witness :
  exists (kecilPercent : Z) (reasoning : Reasoning),
    predictNextOutcome (logOf logFirstRollOutside)
    = Normal (Predicted (ofZ kecilPercent) (ofZ (100 - kecilPercent)) reasoning) /\
    0 <= kecilPercent <= 100.
Proof.
  assert (Hlen : (5 <= length logFirstRollOutside)%nat) by (cbn; lia).
  assert (Hin : secondRollOutside logFirstRollOutside = false) by reflexivity.
  exact (proj2 (predictNextOutcome_failure logFirstRollOutside Hlen) Hin).
Defined.

(** ** What the panels show *)

Lemma dominantOf_cases (t : TrendAnalysis) :
  (upCount t > downCount t /\ upCount t > stableCount t /\
   dominantOf t = "Naik ↑"%string) \/
  (~ (upCount t > downCount t /\ upCount t > stableCount t) /\
   downCount t > upCount t /\ downCount t > stableCount t /\
   dominantOf t = "Turun ↓"%string) \/
  (~ (upCount t > downCount t /\ upCount t > stableCount t) /\
   ~ (downCount t > upCount t /\ downCount t > stableCount t) /\
   dominantOf t = "Stabil →"%string).
Proof.
  unfold dominantOf.
  destruct (Z.gtb_spec (upCount t) (downCount t)),
    (Z.gtb_spec (upCount t) (stableCount t)),
    (Z.gtb_spec (downCount t) (upCount t)),
    (Z.gtb_spec (downCount t) (stableCount t)); cbn [andb];
    first [ left; repeat split; (reflexivity || lia)
          | right; left; repeat split; (reflexivity || lia)
          | right; right; repeat split; (reflexivity || lia) ].
Qed.

(** X14. Under the chart, [renderTrendChart] announces [min(15, length)]
    rounds, while the three counts printed beside that number are those of
    [analyzeTrendDirection] and add up to [min(20, length)]: the number
    announced is the number counted only for logs of at most 15 rounds.
    The style class of the dominance label is read back from the arrow in
    the label and names the direction that strictly dominates, or
    [stabil].  On the empty log nothing is written. *)
Theorem renderTrendSummary_counts :
  renderTrendSummary [] = Normal None /\
  forall games : list game,
    games <> [] ->
    exists v,
      renderTrendSummary games = Normal (Some v) /\
      shownGames v = Nat.min 15 (length games) /\
      analyzeTrendDirection games = Some (shownCounts v) /\
      upCount (shownCounts v) + downCount (shownCounts v)
      + stableCount (shownCounts v) = Z.of_nat (Nat.min 20 (length games)) /\
      (Z.of_nat (shownGames v)
       = upCount (shownCounts v) + downCount (shownCounts v)
         + stableCount (shownCounts v) <-> (length games <= 15)%nat) /\
      (dominanceClass v = "trend-naik"%string <->
       upCount (shownCounts v) > downCount (shownCounts v) /\
       upCount (shownCounts v) > stableCount (shownCounts v)) /\
      (dominanceClass v = "trend-turun"%string <->
       downCount (shownCounts v) > upCount (shownCounts v) /\
       downCount (shownCounts v) > stableCount (shownCounts v)) /\
      (dominanceClass v = "trend-stabil"%string <->
       ~ (upCount (shownCounts v) > downCount (shownCounts v) /\
          upCount (shownCounts v) > stableCount (shownCounts v)) /\
       ~ (downCount (shownCounts v) > upCount (shownCounts v) /\
          downCount (shownCounts v) > stableCount (shownCounts v))).
Proof.
  split; [reflexivity|]. intros games Hne.
  assert (Hlen : (0 < length games)%nat)
    by (destruct games; [congruence | cbn; lia]).
  assert (L15 : length (getRecentGames 15 games) = Nat.min 15 (length games))
    by (unfold getRecentGames, slice_last; rewrite length_skipn; lia).
  unfold renderTrendSummary, getTrendDominant.
  rewrite L15.
  replace (Nat.min 15 (length games) =? 0)%nat with false
    by (symmetry; apply Nat.eqb_neq; lia).
  rewrite analyzeTrendDirection_counts by assumption.
  set (t := mkTrendAnalysis _ _ _).
  assert (T : upCount t + downCount t + stableCount t
              = Z.of_nat (Nat.min 20 (length games))).
  { unfold t; cbn [upCount downCount stableCount].
    now rewrite countDirection_total, getRecentGames_length. }
  eexists; split; [reflexivity|].
  cbn [shownGames shownCounts dominanceClass].
  split; [reflexivity|]. split; [reflexivity|]. split; [exact T|].
  split; [rewrite T; lia|].
  destruct (dominantOf_cases t) as [(U1 & U2 & ->) | [(NU & D1 & D2 & ->)
                                                    | (NU & ND & ->)]];
    cbv [includes getTrendClass];
    repeat split; intros; try discriminate; try reflexivity; try lia;
    try tauto.
Qed.

Lemma renderTrendSummary_counts_witness :
  exists v,
    renderTrendSummary (roundOldest :: logTwenty) = Normal (Some v) /\
    shownGames v = 15%nat /\
    upCount (shownCounts v) + downCount (shownCounts v)
    + stableCount (shownCounts v) = 20.
Proof.
  assert (Hne : roundOldest :: logTwenty <> []) by discriminate.
  destruct (proj2 renderTrendSummary_counts _ Hne) as (v & E & N & _ & T & _).
  exists v; split; [exact E|]. split; [exact N | exact T].
Defined.

(** ** The prediction panel *)

(** X15. With a prediction to show, [renderPrediction] recommends KECIL
    exactly when KECIL is 51 or more and BESAR otherwise, so an even 50/50
    split is reported as BESAR; the confidence it prints is the larger of
    the two percentages, never below 50 nor above 100. *)
Theorem renderPrediction_recommendation (games : list game) :
  validLog games -> (5 <= length games)%nat ->
  exists (kecilPercent : Z) (panel : PredictionPanel),
    renderPrediction games = Normal (inr panel) /\
    shownKECIL panel = ofZ kecilPercent /\
    shownBESAR panel = ofZ (100 - kecilPercent) /\
    (dominantLabel panel = KECIL <-> 51 <= kecilPercent) /\
    (dominantLabel panel = BESAR <-> kecilPercent <= 50) /\
    (dominantClass panel = "prediction-kecil"%string <->
     dominantLabel panel = KECIL) /\
    confidence panel = ofZ (Z.max kecilPercent (100 - kecilPercent)) /\
    50 <= Z.max kecilPercent (100 - kecilPercent) <= 100.
Proof.
  intros Hv Hlen.
  destruct (predictNextOutcome_valid games Hv Hlen)
    as (t & f & s & tp & q & k & b & H).
  destruct H as (_ & _ & _ & _ & _ & _ & Hz & E).
  set (z := Qfloor (k / (k + b) * 100 + (1 # 2))) in *.
  unfold renderPrediction; rewrite E; cbn [bind].
  exists z; eexists; split; [reflexivity|].
  cbn [shownKECIL shownBESAR dominantLabel dominantClass confidence].
  unfold mathMax; rewrite !lt_ofZ; cbn [ofZ].
  split; [reflexivity|]. split; [reflexivity|].
  destruct (Z.ltb_spec (100 - z) z) as [Hw|Hw];
    destruct (Z.ltb_spec z (100 - z)) as [Hm|Hm]; try lia;
    (split; [split; intros; try discriminate; try reflexivity; lia|]);
    (split; [split; intros; try discriminate; try reflexivity; lia|]);
    (split; [split; intros; try discriminate; reflexivity|]);
    (split; [unfold ofZ; do 2 f_equal; lia | lia]).
Qed.

Lemma renderPrediction_recommendation_witness :
  exists (kecilPercent : Z) (panel : PredictionPanel),
    renderPrediction logFive = Normal (inr panel) /\
    shownKECIL panel = ofZ kecilPercent /\
    (dominantLabel panel = BESAR <-> kecilPercent <= 50).
Proof.
  assert (Hlen : (5 <= length logFive)%nat) by (cbn; lia).
  destruct (renderPrediction_recommendation logFive validLog_logFive Hlen)
    as (z & panel & E & K & _ & _ & B & _).
  exists z, panel; split; [exact E|]. split; [exact K | exact B].
Defined.






(** ** The transition table *)

Lemma opacity_range (p : Z) :
  0 <= p <= 100 ->
  percentCell (DataCell (Some (ofZ p)) (mul (div (ofZ p) (Fin 100)) (Fin 0.6))).
Proof.
  intros [Hlo Hhi]; unfold ofZ at 2, div.
  change (Qeq_bool 100 0) with false; cbv iota; cbn [mul].
  exists p; eexists; split; [reflexivity|]. split; [lia|].
  rewrite Zle_Qle in Hlo, Hhi.
  change (inject_Z 0) with 0%Q in Hlo; change (inject_Z 100) with 100%Q in Hhi.
  assert (D : (inject_Z p / 100 == inject_Z p * (1 # 100))%Q) by field.
  rewrite D; set (x := inject_Z p) in *; clearbody x; split; lra.
Qed.

Lemma renderMatrixRow_known (games : list game) (A : State) :
  (2 <= length games)%nat -> statesKnown games -> A <> UNKNOWN ->
  renderMatrixRow games A
  = Normal
      (if rowTotal A games =? 0 then map (fun _ => DashCell) states
       else map (fun B =>
                   DataCell
                     (Some (ofZ (roundedPercent (pairCount A B games)
                                                (rowTotal A games))))
                     (mul (div (ofZ (roundedPercent (pairCount A B games)
                                                    (rowTotal A games)))
                               (Fin 100)) (Fin 0.6)))
                states).
Proof.
  intros Hlen Hk HA; unfold renderMatrixRow.
  rewrite getStateTransitionProbability_known by assumption.
  destruct (rowTotal A games =? 0); cbn [bind]; reflexivity.
Qed.

Lemma renderMatrixRow_cells (games : list game) (A : State) :
  (2 <= length games)%nat -> statesKnown games -> A <> UNKNOWN ->
  exists row,
    renderMatrixRow games A = Normal row /\
    ((countState2 A (removelast games) = 0 /\
      row = [DashCell; DashCell; DashCell; DashCell]) \/
     (0 < countState2 A (removelast games) /\
      length row = 4%nat /\ Forall percentCell row)).
Proof.
  intros Hlen Hk HA; rewrite renderMatrixRow_known by assumption.
  eexists; split; [reflexivity|].
  rewrite <- (rowTotal_sources A games Hk).
  pose proof (rowTotal_nonneg A games) as Hn.
  destruct (Z.eqb_spec (rowTotal A games) 0) as [E|E];
    [left; split; [exact E | reflexivity]|].
  right; split; [lia|]. split; [reflexivity|].
  pose proof (pairCount_nonneg A LOW games).
  pose proof (pairCount_nonneg A MID games).
  pose proof (pairCount_nonneg A HIGH games).
  pose proof (pairCount_nonneg A EXTREME games).
  unfold states; cbn [map].
  repeat (apply Forall_cons;
          [apply opacity_range, roundedPercent_range; unfold rowTotal in *; lia|]).
  apply Forall_nil.
Qed.

(** X17. On a log with named states [renderTransitionMatrix] shows the
    not-enough-data message below two rounds and otherwise a table with
    the four rows LOW, MID, HIGH, EXTREME in that order.  A row is four
    dashes exactly when no round before the last ends in its state;
    otherwise it is four percentages, integers from 0 to 100, each on a
    background whose opacity lies between 0 and 0.6.  No cell is ever
    [undefined] or [NaN]. *)
Theorem renderTransitionMatrix_table (games : list game) :
  statesKnown games ->
  ((length games < 2)%nat -> renderTransitionMatrix games = Normal None) /\
  ((2 <= length games)%nat ->
   exists rLow rMid rHigh rExtreme,
     renderTransitionMatrix games
     = Normal (Some [(LOW, rLow); (MID, rMid); (HIGH, rHigh);
                     (EXTREME, rExtreme)]) /\
     forall A row,
       In (A, row) [(LOW, rLow); (MID, rMid); (HIGH, rHigh); (EXTREME, rExtreme)] ->
       (countState2 A (removelast games) = 0 /\
        row = [DashCell; DashCell; DashCell; DashCell]) \/
       (0 < countState2 A (removelast games) /\
        length row = 4%nat /\ Forall percentCell row)).
Proof.
  intros Hk; split; intros Hlen.
  - destruct games as [|g0 [|g1 rest]]; cbn [length] in Hlen; try lia; reflexivity.
  - assert (HL : LOW <> UNKNOWN) by discriminate.
    assert (HM : MID <> UNKNOWN) by discriminate.
    assert (HH : HIGH <> UNKNOWN) by discriminate.
    assert (HE : EXTREME <> UNKNOWN) by discriminate.
    destruct (renderMatrixRow_cells games LOW Hlen Hk HL) as (r1 & E1 & C1).
    destruct (renderMatrixRow_cells games MID Hlen Hk HM) as (r2 & E2 & C2).
    destruct (renderMatrixRow_cells games HIGH Hlen Hk HH) as (r3 & E3 & C3).
    destruct (renderMatrixRow_cells games EXTREME Hlen Hk HE) as (r4 & E4 & C4).
    exists r1, r2, r3, r4; split.
    + unfold renderTransitionMatrix.
      rewrite buildTransitionMatrix_known by assumption; cbn [bind].
      replace (length games <? 2)%nat with false
        by (symmetry; now apply Nat.ltb_ge).
      unfold states; cbn [renderMatrixRows].
      rewrite E1, E2, E3, E4; reflexivity.
    + intros A row [H | [H | [H | [H | []]]]]; injection H as <- <-; assumption.
Qed.

Lemma renderTransitionMatrix_table_witness :
  exists rLow rMid rHigh rExtreme,
    renderTransitionMatrix logThirds
    = Normal (Some [(LOW, rLow); (MID, rMid); (HIGH, rHigh);
                    (EXTREME, rExtreme)]).
Proof.
  assert (Hlen : (2 <= length logThirds)%nat) by (cbn; lia).
  destruct (proj2 (renderTransitionMatrix_table logThirds statesKnown_logThirds)
              Hlen) as (r1 & r2 & r3 & r4 & E & _).
  exists r1, r2, r3, r4; exact E.
Defined.

(** ** The chart *)

Lemma div_Fin_pos (a b : Q) : (0 < b)%Q -> div (Fin a) (Fin b) = Fin (a / b).
Proof. intros Hb; cbn [div]; now rewrite (Qeq_bool_pos b Hb). Qed.

Lemma chartPoint_single (w h : Z) (roll : num) :
  fst (chartPoint w h 1 0 roll) = NaN.
Proof.
  unfold chartPoint; cbn [fst].
  change (sub (ofZ (Z.of_nat 1)) (Fin 1)) with (Fin (1 + - 1)).
  unfold sub, ofZ; cbn [neg mul add div].
  change (Qeq_bool (1 + - 1) 0) with true; cbv iota.
  destruct (Qeq_bool (inject_Z w + - (2 * 50)) 0); reflexivity.
Qed.

Lemma chartPoint_inside (w h : Z) (points i : nat) (roll : Z) :
  100 <= w -> 100 <= h -> (i < points)%nat -> (2 <= points)%nat ->
  6 <= roll <= 54 ->
  insideChart w h (chartPoint w h points i roll).
Proof.
  intros Hw Hh Hi Hp Hr; unfold chartPoint, insideChart.
  rewrite Zle_Qle in Hw, Hh; change (inject_Z 100) with 100%Q in Hw, Hh.
  assert (Hi' : (0 <= inject_Z (Z.of_nat i)
                 <= inject_Z (Z.of_nat points) - 1)%Q).
  { split; [change 0%Q with (inject_Z 0); rewrite <- Zle_Qle; lia|].
    change 1%Q with (inject_Z 1); unfold Qminus.
    rewrite <- inject_Z_opp, <- inject_Z_plus, <- Zle_Qle; lia. }
  assert (Hd : (1 <= inject_Z (Z.of_nat points) - 1)%Q).
  { change 1%Q with (inject_Z 1); unfold Qminus.
    rewrite <- inject_Z_opp, <- inject_Z_plus, <- Zle_Qle; lia. }
  assert (Hr' : (6 <= inject_Z roll <= 54)%Q).
  { split; [change 6%Q with (inject_Z 6) | change 54%Q with (inject_Z 54)];
      rewrite <- Zle_Qle; lia. }
  unfold sub, ofZ; cbn [neg mul add].
  set (W := inject_Z w) in *; set (H := inject_Z h) in *.
  set (n := inject_Z (Z.of_nat points)) in *.
  set (k := inject_Z (Z.of_nat i)) in *; set (r := inject_Z roll) in *.
  clearbody W H n k r.
  rewrite (div_Fin_pos _ (n + - 1)) by lra.
  rewrite (div_Fin_pos _ (54 + - 6)) by lra.
  cbn [mul add].
  eexists; eexists; split; [reflexivity|].
  assert (Dx : ((W + - (2 * 50)) / (n + - 1) * k
                == (W - 100) * (k / (n - 1)))%Q) by (field; lra).
  assert (Dy : ((r + - 6) / (54 + - 6) * (H + - (2 * 50))
                == (H - 100) * ((r - 6) * (1 # 48)))%Q) by field.
  assert (Fx : (0 <= k / (n - 1) <= 1)%Q).
  { split; [apply Qle_shift_div_l | apply Qle_shift_div_r]; lra. }
  set (fx := (k / (n - 1))%Q) in *; clearbody fx.
  set (fy := ((r - 6) * (1 # 48))%Q) in *.
  assert (Fy : (0 <= fy <= 1)%Q) by (unfold fy; split; lra).
  clearbody fy.
  rewrite Dx, Dy; split; split; nra.
Qed.

(** X18. With a single round in the log the only point of each line of the
    chart has no abscissa: the step [chartWidth / (length - 1)] is a
    division by zero and its product with the index 0 is [NaN], whatever
    the size of the canvas.  From two rounds on, on a canvas of at least
    100 by 100, the chart plots [min(15, length)] points per line and
    every point of a valid log lies in the plotting area: at least 50 from
    the left, top and bottom edges and more than 49 from the right edge. *)
Theorem chartLines_points (canvasWidth canvasHeight : Z) :
  (forall g : game,
      exists y1 y2,
        chartLines canvasWidth canvasHeight [g] = [((NaN, y1), (NaN, y2))]) /\
  (forall games : list game,
      validLog games -> (2 <= length games)%nat ->
      100 <= canvasWidth -> 100 <= canvasHeight ->
      length (chartLines canvasWidth canvasHeight games)
      = Nat.min 15 (length games) /\
      Forall (fun line =>
                insideChart canvasWidth canvasHeight (fst line) /\
                insideChart canvasWidth canvasHeight (snd line))
             (chartLines canvasWidth canvasHeight games)).
Proof.
  split.
  - intros g; unfold chartLines; cbn [getRecentGames slice_last length Nat.sub
                                       skipn seq combine map].
    do 2 eexists.
    rewrite (surjective_pairing (chartPoint canvasWidth canvasHeight 1 0 (roll1 g))).
    rewrite (surjective_pairing (chartPoint canvasWidth canvasHeight 1 0 (roll2 g))).
    rewrite !chartPoint_single; reflexivity.
  - intros games Hv Hlen Hw Hh.
    assert (L15 : length (getRecentGames 15 games) = Nat.min 15 (length games))
      by (unfold getRecentGames, slice_last; rewrite length_skipn; lia).
    assert (Hr : Forall wellFormed (getRecentGames 15 games))
      by (unfold getRecentGames, slice_last; now apply Forall_skipn_keeps).
    unfold chartLines; split.
    + rewrite length_map, length_combine, length_seq; lia.
    + apply Forall_forall; intros line Hin.
      apply in_map_iff in Hin; destruct Hin as ([i g] & <- & Hin).
      pose proof (in_combine_l _ _ _ _ Hin) as Hi; apply in_seq in Hi.
      pose proof (in_combine_r _ _ _ _ Hin) as Hg.
      destruct (proj1 (Forall_forall _ _) Hr g Hg) as (r1 & r2 & H1 & H2 & ->).
      cbn [fst snd newGame roll1 roll2];
        split; apply chartPoint_inside; try assumption; lia.
Qed.

Lemma chartLines_points_witness :
  length (chartLines 300 150 logFive) = 5%nat /\
  Forall (fun line => insideChart 300 150 (fst line) /\
                      insideChart 300 150 (snd line))
         (chartLines 300 150 logFive).
Proof.
  assert (Hlen : (2 <= length logFive)%nat) by (cbn; lia).
  assert (Hw : 100 <= 300) by lia.
  assert (Hh : 100 <= 150) by lia.
  exact (proj2 (chartLines_points 300 150) logFive validLog_logFive Hlen Hw Hh).
Defined.

(** ** How far the prediction can lean *)









(** ** Sessions *)

Lemma stored_app (a b : list (num * num)) : stored (a ++ b) = stored a ++ stored b.
Proof. unfold stored; apply map_app. Qed.

Lemma submitAll_app (rolls : list (num * num)) :
  forall games, submitAll rolls games = games ++ stored (filter passes rolls).
Proof.
  induction rolls as [|[r1 r2] rolls IH]; intros games.
  - cbn; now rewrite app_nil_r.
  - unfold submitAll in *; cbn [fold_left filter].
    rewrite IH, handleFormSubmit_passes.
    destruct (passes (r1, r2)); [|reflexivity].
    now rewrite <- app_assoc.
Qed.

(** X1. Submitting a sequence of pairs appends to the log exactly the
    rounds of the pairs that pass the range check, in the order they were
    submitted; a rejected pair leaves no trace and nothing already in the
    log changes.  A pair of integers passes exactly when both lie in
    [6,54]; a field that does not hold a number ([NaN]) passes too, alone
    or beside an integer of [6,54]. *)
Theorem submitAll_accepted (rolls : list (num * num)) (games : list game) :
  submitAll rolls games = games ++ stored (filter passes rolls) /\
  length (submitAll rolls games)
  = (length games + length (filter passes rolls))%nat /\
  (forall r1 r2 : Z, passes (ofZ r1, ofZ r2) = accepted (r1, r2)) /\
  (forall r : Z,
      passes (NaN, ofZ r) = inRange r /\ passes (ofZ r, NaN) = inRange r) /\
  passes (NaN, NaN) = true /\
  (forall (roll : num) (negative : bool),
      passes (Inf negative, roll) = false /\ passes (roll, Inf negative) = false).
Proof.
  split; [apply submitAll_app|]. split.
  - rewrite submitAll_app, length_app; unfold stored; now rewrite length_map.
  - split; [exact passes_ofZ|]. split; [|split; [reflexivity|]].
    + intros r; unfold passes; cbn [fst snd passesCheck andb].
      now rewrite passesCheck_ofZ, andb_true_r.
    + intros roll negative; unfold passes; cbn [fst snd passesCheck andb].
      now rewrite andb_false_r.
Qed.

Lemma run_from (actions : list action) :
  forall pairs : list (num * num),
    run actions (stored (filter passes pairs))
    = stored (filter passes
                (fold_left
                   (fun pairs a =>
                      match a with
                      | Submit roll1 roll2 => pairs ++ [(roll1, roll2)]
                      | Clear true => []
                      | Clear false => pairs
                      end)
                   actions pairs)).
Proof.
  induction actions as [|a actions IH]; intros pairs; [reflexivity|].
  unfold run in *; cbn [fold_left].
  destruct a as [r1 r2 | [|]]; cbn [perform clearAllData].
  - rewrite handleFormSubmit_passes, <- IH, filter_app, stored_app.
    cbn [filter]; destruct (passes (r1, r2)); cbn [stored map];
      [reflexivity | now rewrite app_nil_r].
  - exact (IH []).
  - apply IH.
Qed.

(** X20. After any session started on the empty log, the log holds exactly
    the rounds of the pairs that passed the range check among those
    submitted since the last confirmed clear, in order: a confirmed clear
    erases everything before it, and a declined clear or a rejected pair
    changes nothing. *)
Theorem run_since_last_clear (actions : list action) :
  run actions [] = stored (filter passes (sinceLastClear actions)) /\
  length (run actions [])
  = length (filter passes (sinceLastClear actions)).
Proof.
  assert (E : run actions [] = stored (filter passes (sinceLastClear actions)))
    by (exact (run_from actions [])).
  split; [exact E|].
  rewrite E; unfold stored; apply length_map.
Qed.

Lemma handleFormSubmit_numeric (roll1 roll2 : num) (games : list game) :
  parsedNumber roll1 -> parsedNumber roll2 ->
  validLog games -> validLog (handleFormSubmit roll1 roll2 games).
Proof.
  intros [(r1 & ->) | (n1 & ->)] [(r2 & ->) | (n2 & ->)] Hv.
  - now apply handleFormSubmit_valid.
  - rewrite handleFormSubmit_passes; unfold passes; cbn [fst snd passesCheck].
    now rewrite andb_false_r.
  - now rewrite handleFormSubmit_passes.
  - now rewrite handleFormSubmit_passes.
Qed.

Lemma perform_valid (games : list game) (a : action) :
  numeric a -> validLog games -> validLog (perform games a).
Proof.
  destruct a as [r1 r2 | [|]]; cbn [perform clearAllData numeric]; intros Hn Hv.
  - destruct Hn; now apply handleFormSubmit_numeric.
  - constructor.
  - exact Hv.
Qed.

Lemma run_valid (actions : list action) :
  Forall numeric actions ->
  forall games, validLog games -> validLog (run actions games).
Proof.
  induction 1 as [|a actions Ha _ IH]; intros games Hv; [exact Hv|].
  apply IH, perform_valid; assumption.
Qed.

(** X2. As long as every field submitted holds a number, whatever the user
    does, starting from the empty log, the log only ever holds rounds with
    both rolls integers of [6,54] and the derived fields computed from
    them, and on such a log none of the queries fails:
    [buildTransitionMatrix], [getStateTransitionProbability] for each of
    the four states, and [predictNextOutcome] all return normally. *)
Theorem session_never_fails (actions : list action) :
  Forall numeric actions ->
  validLog (run actions []) /\
  buildTransitionMatrix (run actions []) <> TypeError /\
  (forall s, s <> UNKNOWN ->
     getStateTransitionProbability s (run actions []) <> TypeError) /\
  predictNextOutcome (run actions []) <> TypeError.
Proof.
  intros Hn.
  assert (Hv : validLog (run actions []))
    by (apply run_valid; [exact Hn | constructor]).
  pose proof (validLog_statesKnown _ Hv) as Hk.
  split; [exact Hv|]. split; [now apply buildTransitionMatrix_no_throw|].
  split; [intros s Hs; now apply getStateTransitionProbability_no_throw|].
  now apply predictNextOutcome_no_throw.
Qed.

Lemma session_never_fails_witness :
  getStateTransitionProbability LOW
    (run [Submit 10 10; Submit 5 10; Clear false; Submit 20 (Inf false);
          Submit 20 10] [])
  <> TypeError.
Proof.
  assert (Hs : LOW <> UNKNOWN) by discriminate.
  assert (Hi : forall z : Z, parsedNumber z) by (intros z; left; now exists z).
  assert (Hn : Forall numeric
                 [Submit 10 10; Submit 5 10; Clear false; Submit 20 (Inf false);
                  Submit 20 10]).
  { repeat (apply Forall_cons; [|]); try apply Forall_nil; cbn [numeric];
      try exact I; split; try apply Hi.
    right; now exists false. }
  destruct (session_never_fails _ Hn) as (_ & _ & P & _).
  exact (P LOW Hs).
Defined.

(** A stored round whose second roll is [NaN] ends in UNKNOWN. *)
Lemma stored_secondRollNaN (rolls : list (num * num)) :
  existsb secondRollNaN rolls = true ->
  existsb (fun g => negb (known (state2 g))) (stored rolls) = true.
Proof.
  induction rolls as [|[r1 r2] rolls IH]; cbn [existsb stored map]; [discriminate|].
  intros H; apply orb_true_iff in H; destruct H as [H|H].
  - unfold secondRollNaN in H; cbn [snd] in H.
    destruct r2; try discriminate; reflexivity.
  - fold (stored rolls); rewrite (IH H); apply orb_true_r.
Qed.

(** Stored rounds whose second rolls are numbers end in a named state on an
    integer of [6,54]. *)
Lemma stored_secondRollValid (rolls : list (num * num)) :
  Forall (fun pair => parsed (fst pair) /\ parsed (snd pair)) rolls ->
  existsb secondRollNaN (filter passes rolls) = false ->
  Forall secondRollValid (stored (filter passes rolls)).
Proof.
  induction 1 as [|[r1 r2] rolls [_ H2] _ IH]; cbn [filter]; [constructor|].
  destruct (passes (r1, r2)) eqn:P; [|exact IH].
  cbn [existsb stored map]; intros E; apply orb_false_iff in E.
  destruct E as [N E]; constructor; [|now apply IH].
  unfold passes in P; cbn [fst snd] in P, H2.
  apply andb_true_iff in P; destruct P as [_ P].
  destruct H2 as [-> | [(z & ->) | (n & ->)]]; try discriminate.
  rewrite passesCheck_ofZ in P; unfold inRange in P.
  assert (Hz : 6 <= z <= 54) by lia.
  split; [now apply getState_known | now exists z].
Qed.

(** X3. Starting from the empty log, [predictNextOutcome] answers the
    cannot-predict sentinel as long as fewer than five of the submitted
    pairs have passed the range check.  From five on, when every field
    held what [parseInt] can return, it fails if one of the stored second
    rolls is [NaN], and gives a prediction otherwise, whatever the first
    rolls. *)
Theorem predicts_after_five_accepted (rolls : list (num * num)) :
  ((length (filter passes rolls) < 5)%nat ->
   predictNextOutcome (submitAll rolls [])
   = Normal (CannotPredict "Data belum cukup (minimal 5 game)")) /\
  ((5 <= length (filter passes rolls))%nat ->
   Forall (fun pair => parsed (fst pair) /\ parsed (snd pair)) rolls ->
   (existsb secondRollNaN (filter passes rolls) = true ->
    predictNextOutcome (submitAll rolls []) = TypeError) /\
   (existsb secondRollNaN (filter passes rolls) = false ->
    predicts (predictNextOutcome (submitAll rolls [])) = true)).
Proof.
  rewrite submitAll_app; cbn [app].
  assert (L : length (stored (filter passes rolls))
              = length (filter passes rolls))
    by (unfold stored; apply length_map).
  split.
  - intros Hlt; apply predictNextOutcome_short; lia.
  - intros Hge Hp; split; intros Hnan.
    + unfold predictNextOutcome.
      replace (length (stored (filter passes rolls)) <? 5)%nat with false
        by (symmetry; apply Nat.ltb_ge; lia).
      rewrite predictionInputs_unknown_state2; [reflexivity | lia |].
      now apply stored_secondRollNaN.
    + destruct (predictNextOutcome_second_valid (stored (filter passes rolls)))
        as (kecilPercent & reasoning & -> & _);
        [lia | now apply stored_secondRollValid | reflexivity].
Qed.

Lemma predicts_after_five_accepted_witness :
  predictNextOutcome
    (submitAll [(ofZ 10, ofZ 20); (NaN, ofZ 20); (ofZ 30, ofZ 40);
                (ofZ 60, ofZ 6); (ofZ 12, ofZ 12); (ofZ 33, NaN)] [])
  = TypeError.
Proof.
  assert (Hi : forall z : Z, parsed z) by (intros z; right; left; now exists z).
  assert (Hn : parsed NaN) by now left.
  apply (proj2 (predicts_after_five_accepted
                  [(ofZ 10, ofZ 20); (NaN, ofZ 20); (ofZ 30, ofZ 40);
                   (ofZ 60, ofZ 6); (ofZ 12, ofZ 12); (ofZ 33, NaN)])).
  - cbn; lia.
  - repeat (apply Forall_cons; [cbn [fst snd]; split; first [apply Hi | exact Hn]|]).
    apply Forall_nil.
  - reflexivity.
Defined.




(** ** A row poisoned by an UNKNOWN destination *)

Lemma fold_add_NaN (l : list num) : fold_left add l NaN = NaN.
Proof. induction l as [|x l IH]; [reflexivity | exact IH]. Qed.

Lemma sum_with_NaN (l : list num) : In NaN l -> sum l = NaN.
Proof.
  unfold sum; generalize (Fin 0).
  induction l as [|x l IH]; intros acc; [intros []|].
  intros [-> | Hin]; cbn [fold_left].
  - replace (add acc NaN) with NaN by (now destruct acc).
    apply fold_add_NaN.
  - now apply IH.
Qed.

Lemma percent_of_NaN (count : num) : round (mul (div count NaN) (Fin 100)) = NaN.
Proof. now destruct count. Qed.

Lemma fold_percent_keeps_NaN (l : list (State * num)) :
  forall (acc : obj num) (k : State),
    get acc k = Some NaN ->
    get (fold_left
           (fun probability '(toState, count) =>
              set probability toState (round (mul (div count NaN) (Fin 100))))
           l acc) k = Some NaN.
Proof.
  induction l as [|[k0 c] l IH]; intros acc k Hk; [exact Hk|].
  cbn [fold_left]; rewrite percent_of_NaN; apply IH.
  destruct (State_eqb_spec k0 k) as [->|Hne];
    [apply get_set_same | now rewrite get_set_other].
Qed.

Lemma fold_percent_NaN (l : list (State * num)) :
  forall acc : obj num,
    Forall (fun v => v = NaN) (values acc) ->
    Forall (fun v => v = NaN)
      (values
         (fold_left
            (fun probability '(toState, count) =>
               set probability toState (round (mul (div count NaN) (Fin 100))))
            l acc)) /\
    forall k, get l k <> None ->
      get (fold_left
             (fun probability '(toState, count) =>
                set probability toState (round (mul (div count NaN) (Fin 100))))
             l acc) k = Some NaN.
Proof.
  induction l as [|[k0 c] l IH]; intros acc Hacc.
  - split; [exact Hacc | intros k H; now elim H].
  - cbn [fold_left]; rewrite percent_of_NaN.
    assert (Hacc' : Forall (fun v => v = NaN) (values (set acc k0 NaN)))
      by (now apply Forall_values_set).
    destruct (IH _ Hacc') as [IH1 IH2]; split; [exact IH1|].
    intros k Hk; cbn [get] in Hk.
    destruct (State_eqb_spec k k0) as [Heq|Hne]; [|now apply IH2].
    rewrite Heq; apply fold_percent_keeps_NaN, get_set_same.
Qed.

(** X21. When some round that starts from an UNKNOWN state follows a round
    ending in state [A], the row of [A] is poisoned: unless the matrix
    cannot be built at all, [getStateTransitionProbability(A)] returns a
    row whose every percentage is [NaN], with an UNKNOWN property that is
    [NaN] too; it never answers [null]. *)
Theorem unknown_destination_poisons_row
    (games : list game) (i : nat) (p g : game) :
  nth_error games i = Some p -> nth_error games (S i) = Some g ->
  state1 g = UNKNOWN ->
  getStateTransitionProbability (state2 p) games = TypeError \/
  exists prob,
    getStateTransitionProbability (state2 p) games = Normal (Some prob) /\
    Forall (fun v => v = NaN) (values prob) /\
    get prob UNKNOWN = Some NaN.
Proof.
  intros Hp Hg Hu.
  unfold getStateTransitionProbability.
  destruct (buildTransitionMatrix games) as [[m|]|] eqn:E; cbn [bind];
    [| |now left].
  - assert (C : cell m (state2 p) UNKNOWN = Some NaN).
    { destruct games as [|g0 [|g1 rest]]; try discriminate E.
      unfold buildTransitionMatrix in E.
      destruct (transitionLoop zeroMatrix g0 (g1 :: rest)) as [m1|] eqn:E1;
        cbn [bind] in E; [|discriminate].
      injection E as <-.
      destruct (transitionLoop_unknownColumn _ _ _ _
                  zeroMatrix_unknownColumn E1) as (_ & _ & N).
      eapply N; eauto. }
    unfold cell in C.
    destruct (get m (state2 p)) as [row|]; [|discriminate].
    right.
    assert (S : sum (values row) = NaN)
      by (apply sum_with_NaN; eapply get_In_values; exact C).
    rewrite S; cbn [strict_eq].
    destruct (fold_percent_NaN (entries row) [] (Forall_nil _)) as [F1 F2].
    eexists; split; [reflexivity|]. split; [exact F1|].
    apply F2; unfold entries; congruence.
  - exfalso.
    destruct games as [|g0 [|g1 rest]].
    + destruct i; discriminate.
    + destruct i as [|[|i]]; discriminate.
    + unfold buildTransitionMatrix in E.
      destruct (transitionLoop zeroMatrix g0 (g1 :: rest)); discriminate E.
Qed.

Lemma unknown_destination_poisons_row_witness :
  getStateTransitionProbability LOW logPoisonedRow
  = Normal (Some [(LOW, NaN); (MID, NaN); (HIGH, NaN); (EXTREME, NaN);
                  (UNKNOWN, NaN)]).
Proof.
  assert (Hp : nth_error logPoisonedRow 1 = Some (newGame 20 10)) by reflexivity.
  assert (Hg : nth_error logPoisonedRow 2 = Some (newGame 60 10)) by reflexivity.
  assert (Hu : state1 (newGame 60 10) = UNKNOWN) by reflexivity.
  destruct (unknown_destination_poisons_row logPoisonedRow 1 _ _ Hp Hg Hu)
    as [T | (prob & E & _)]; [discriminate T | reflexivity].
Defined.
